(** * plot_loss.py: extraction of validation losses from a training log

    A shallow embedding of [src/plot_loss.py]: the regular expression of
    [parse_log_file] with Python's backtracking search, the conversions
    [int] and [float] on the captured groups, the line loop with its two
    result lists, the renderer [plot_loss] as the plotting calls it
    makes, each of which returns or raises, and [main] with its exit
    status.

    Text is a sequence of characters in the range U+0000..U+00FF
    ([ascii] read as a code point).  In that range the class [\d] of a
    Python [str] pattern is exactly '0'..'9' and [\s] is the twelve
    characters of [is_space]. *)

From Stdlib Require Import ZArith Bool Ascii String Lia.
From Stdlib Require Import SpecFloat DecimalString List.
Import ListNotations.

Open Scope string_scope.
Open Scope list_scope.
Open Scope Z_scope.

(** ** Characters and strings *)

(** A line of the log, character by character. *)
Definition str := list ascii.

Definition lit (s : string) : str := list_ascii_of_string s.

Definition code (c : ascii) : Z := Z.of_N (N_of_ascii c).

(** [\d] *)
Definition is_digit (c : ascii) : bool :=
  (48 <=? code c) && (code c <=? 57).

(** [\s]: tab, LF, VT, FF, CR, FS, GS, RS, US, space, NEL, NBSP. *)
Definition is_space (c : ascii) : bool :=
  ((9 <=? code c) && (code c <=? 13))
  || ((28 <=? code c) && (code c <=? 32))
  || (code c =? 133) || (code c =? 160).

Definition is_dot (c : ascii) : bool := code c =? 46.

(** [[\d.]] *)
Definition is_digit_or_dot (c : ascii) : bool := is_digit c || is_dot c.

(** ** Regular expressions, as much of [re] as the pattern uses *)

Inductive regex : Type :=
| Lit (s : str)                     (* literal characters *)
| Plus (cls : ascii -> bool)        (* one or more of a class, greedy *)
| Group (n : nat) (r : regex)       (* capturing group number n *)
| Cat (r1 r2 : regex).              (* concatenation *)

(** The groups of a match, most recently closed first. *)
Definition captures := list (nat * str).

Fixpoint group (m : captures) (n : nat) : option str :=
  match m with
  | [] => None
  | (k, s) :: m' => if Nat.eqb k n then Some s else group m' n
  end.

Fixpoint strip_prefix (p s : str) : option str :=
  match p, s with
  | [], _ => Some s
  | a :: p', b :: s' => if Ascii.eqb a b then strip_prefix p' s' else None
  | _ :: _, [] => None
  end.

(** What was consumed between the input [s] and its suffix [s']. *)
Definition consumed (s s' : str) : str :=
  firstn (length s - length s') s.

Section Backtracking.
Context {R : Type}.

(** [cls+]: take as many characters as possible, then give back one at
    a time while the continuation fails. *)
Fixpoint plus_bt (cls : ascii -> bool) (s : str) (k : str -> option R)
  : option R :=
  match s with
  | [] => None
  | c :: s' =>
      if cls c then
        match plus_bt cls s' k with
        | Some r => Some r
        | None => k s'
        end
      else None
  end.

(** The matcher in continuation-passing style: [k] is the rest of the
    pattern, called on the remaining input and the groups so far. *)
Fixpoint bt (r : regex) (s : str) (caps : captures)
         (k : str -> captures -> option R) : option R :=
  match r with
  | Lit l =>
      match strip_prefix l s with
      | Some s' => k s' caps
      | None => None
      end
  | Plus cls => plus_bt cls s (fun s' => k s' caps)
  | Group n r' =>
      bt r' s caps (fun s' caps' => k s' ((n, consumed s s') :: caps'))
  | Cat r1 r2 =>
      bt r1 s caps (fun s' caps' => bt r2 s' caps' k)
  end.
End Backtracking.

(** [Pattern.match]: a match that starts at the first character. *)
Definition match_here (r : regex) (s : str) : option captures :=
  bt r s [] (fun _ caps => Some caps).

(** [Pattern.search]: the first start position, left to right, at which
    the pattern matches. *)
Fixpoint search (r : regex) (s : str) : option captures :=
  match match_here r s with
  | Some m => Some m
  | None =>
      match s with
      | [] => None
      | _ :: s' => search r s'
      end
  end.

(** [re.compile(r'step:(\d+)/(\d+)\s+val_loss:([\d.]+)')] *)
Definition pattern : regex :=
  Cat (Lit (lit "step:"))
 (Cat (Group 1 (Plus is_digit))
 (Cat (Lit (lit "/"))
 (Cat (Group 2 (Plus is_digit))
 (Cat (Plus is_space)
 (Cat (Lit (lit "val_loss:"))
      (Group 3 (Plus is_digit_or_dot))))))).

(** ** Exceptions and the conversions [int] and [float] *)

Inductive reason :=
| BadInt                            (* int(): not a decimal integer *)
| IntTooLong                        (* int(): more digits than the limit *)
| BadFloat                          (* float(): not a number *)
| EmptySequence                     (* min(), max(): nothing to compare *)
| ShapeMismatch.                    (* plt.plot(): lists of unequal length *)

Inductive exn :=
| ValueError (why : reason)
| OSError                           (* raised by open(), by savefig() *)
| OverflowError.                    (* an integer too large for a float *)

(** How a piece of code ends: normally, or with an exception. *)
Inductive completion := Normal | Raised (e : exn).

(** Computations that may raise. *)
Definition M (A : Type) : Type := exn + A.

Definition ret {A} (a : A) : M A := inr a.
Definition raise {A} (e : exn) : M A := inl e.
Definition bind {A B} (m : M A) (f : A -> M B) : M B :=
  match m with
  | inl e => inl e
  | inr a => f a
  end.

Notation "x <- m ;; f" := (bind m (fun x => f))
  (at level 61, m at next level, right associativity).

Definition digit_value (c : ascii) : Z := code c - 48.

(** The number a string of decimal digits denotes. *)
Definition int_of_digits (s : str) : Z :=
  fold_left (fun acc c => 10 * acc + digit_value c) s 0.

(** Below this many digits CPython never consults the limit on the
    length of a decimal integer string. *)
Definition MAX_STR_DIGITS_THRESHOLD : nat := 640.

(** IEEE 754 binary64. *)
Definition prec : Z := 53.
Definition emax : Z := 1024.

Definition float := spec_float.

(** The binary64 nearest to [p / 10^k] (ties to even), for [0 <= p]:
    the quotient of the two integers with its rounding location, then
    the rounding of IEEE division. *)
Definition float_of_decimal (p : Z) (k : nat) : float :=
  let '(q, e, l) := SFdiv_core_binary prec emax p 0 (10 ^ Z.of_nat k) 0 in
  binary_round_aux prec emax false q e l.

(** Splits off the longest prefix of [s] within a class. *)
Fixpoint span (cls : ascii -> bool) (s : str) : str * str :=
  match s with
  | [] => ([], [])
  | c :: s' =>
      if cls c then let (a, b) := span cls s' in (c :: a, b)
      else ([], s)
  end.

Definition is_nil {A} (l : list A) : bool :=
  match l with [] => true | _ => false end.

(** [float(s)] for the strings group 3 can hold (digits and dots; any
    other character is reported as a ValueError here): digits with at
    most one dot and at least one digit. *)
Definition py_float (s : str) : M float :=
  let (ip, rest) := span is_digit s in
  match rest with
  | [] =>
      if is_nil ip then raise (ValueError BadFloat)
      else ret (float_of_decimal (int_of_digits ip) 0)
  | c :: fp =>
      if is_dot c && forallb is_digit fp && negb (is_nil ip && is_nil fp)
      then ret (float_of_decimal (int_of_digits (ip ++ fp)) (length fp))
      else raise (ValueError BadFloat)
  end.

(** ** Formatting and the builtins [min] and [max] *)

(** [str(n)] for an integer. *)
Definition str_of_Z (n : Z) : string := NilZero.string_of_int (Z.to_int n).

Definition str_of_nat (n : nat) : string := str_of_Z (Z.of_nat n).

(** [min]: the first item is kept until a smaller one turns up. *)
Fixpoint min_from {A} (lt : A -> A -> bool) (cur : A) (l : list A) : A :=
  match l with
  | [] => cur
  | x :: l' => min_from lt (if lt x cur then x else cur) l'
  end.

(** [max]: the first item is kept until a greater one turns up. *)
Fixpoint max_from {A} (lt : A -> A -> bool) (cur : A) (l : list A) : A :=
  match l with
  | [] => cur
  | x :: l' => max_from lt (if lt cur x then x else cur) l'
  end.

Definition py_min {A} (lt : A -> A -> bool) (l : list A) : option A :=
  match l with
  | [] => None
  | x :: l' => Some (min_from lt x l')
  end.

Definition py_max {A} (lt : A -> A -> bool) (l : list A) : option A :=
  match l with
  | [] => None
  | x :: l' => Some (max_from lt x l')
  end.

Definition float_lt (x y : float) : bool := SFltb x y.

(** [n / d] rounded to the nearest integer, ties to even ([0 <= n], [0 < d]). *)
Definition div_round_even (n d : Z) : Z :=
  let q := n / d in
  let r := n mod d in
  match 2 * r ?= d with
  | Lt => q
  | Gt => q + 1
  | Eq => if Z.even q then q else q + 1
  end.

(** Pads a decimal string with zeros on the left up to [w] characters. *)
Fixpoint zfill (w : nat) (s : string) : string :=
  match Nat.ltb (String.length s) w, w with
  | true, S w' => String "0" (zfill w' s)
  | _, _ => s
  end.

(** The digits of [n / 10^4] with four decimals. *)
Definition fixed4 (n : Z) : string :=
  (str_of_Z (n / 10000) ++ "." ++ zfill 4 (str_of_Z (n mod 10000)))%string.

(** [format(x, '.4f')]: the exact value of [x] rounded to four decimals,
    ties to even. *)
Definition format_4f (x : float) : string :=
  match x with
  | S754_nan => "nan"
  | S754_infinity s => if s then "-inf" else "inf"
  | S754_zero s => if s then "-0.0000" else "0.0000"
  | S754_finite s m e =>
      let n := match e with
               | Zneg k => div_round_even (Zpos m * 10000) (2 ^ Zpos k)
               | _ => Zpos m * 2 ^ e * 10000
               end in
      ((if s then "-" else "") ++ fixed4 n)%string
  end.

(** ** The plotting library and the terminal, as a trace of calls

    [print] is taken to return.  A call of [matplotlib.pyplot] returns
    or raises: [plt.plot] raises on its arguments alone when the two
    lists differ in length or a step is too large for a float; apart
    from that the environment decides (a path that cannot be written,
    a display that cannot be opened).  An exception ends [plot_loss]
    at that call, and the trace holds the calls that returned. *)

Inductive event :=
| Print (msg : string)
| PltFigure (width height : Z)
| PltPlot (xs : list Z) (ys : list float)
| PltXlabel (s : string)
| PltYlabel (s : string)
| PltTitle (s : string)
| PltGrid
| PltTightLayout
| PltSavefig (path : string) (dpi : Z)
| PltShow.

(** An optional string with a true truth value: [None] and [''] are
    false. *)
Definition truthy (o : option string) : option string :=
  match o with
  | None => None
  | Some s => if String.eqb s "" then None else Some s
  end.

(** [o or default] *)
Definition py_or (o : option string) (default : string) : string :=
  match truthy o with
  | Some s => s
  | None => default
  end.

(** What the environment makes of a call: [None] when the call
    returns, the exception it raises otherwise. *)
Definition plt_env := event -> option exn.

(** The environment in which every call returns. *)
Definition plt_ok : plt_env := fun _ => None.

(** [float(n)] of an integer, which the plotting library makes of each
    step: it fails, with OverflowError, when [n] rounds beyond the
    largest float. *)
Definition fits_float (n : Z) : bool :=
  match float_of_decimal (Z.abs n) 0 with
  | S754_infinity _ => false
  | _ => true
  end.

(** What [plt.plot(xs, ys)] raises on its arguments alone. *)
Definition plot_args_error (xs : list Z) (ys : list float) : option exn :=
  if negb (Nat.eqb (length xs) (length ys)) then
    Some (ValueError ShapeMismatch)
  else if forallb fits_float xs then None
  else Some OverflowError.

(** The outcome of one call. *)
Definition call_outcome (env : plt_env) (ev : event) : option exn :=
  match ev with
  | Print _ => None
  | PltPlot xs ys =>
      match plot_args_error xs ys with
      | Some e => Some e
      | None => env ev
      end
  | _ => env ev
  end.

(** Calls made one after the other, up to the first that raises: the
    calls that returned, and how the sequence ended. *)
Fixpoint run_calls (env : plt_env) (calls : list event)
  : list event * completion :=
  match calls with
  | [] => ([], Normal)
  | ev :: rest =>
      match call_outcome env ev with
      | Some e => ([], Raised e)
      | None => let r := run_calls env rest in (ev :: fst r, snd r)
      end
  end.

(** The calls [plot_loss(steps, val_losses, output_file, title)] makes
    when none raises, lines 38-56. *)
Definition plot_calls (steps : list Z) (val_losses : list float)
           (output_file title : option string) : list event :=
  if is_nil steps then
    [Print "No loss data found in log file!"]
  else
    [PltFigure 10 6;
     PltPlot steps val_losses;
     PltXlabel "Training Step";
     PltYlabel "Validation Loss";
     PltTitle (py_or title "Validation Loss Over Training");
     PltGrid;
     PltTightLayout]
    ++ match truthy output_file with
       | Some out => [PltSavefig out 150; Print ("Plot saved to " ++ out)]
       | None => [PltShow]
       end.

(** [plot_loss], lines 38-56. *)
Definition plot_loss (env : plt_env) (steps : list Z)
           (val_losses : list float) (output_file title : option string)
  : list event * completion :=
  run_calls env (plot_calls steps val_losses output_file title).

(** Lines 82-84 of [main]: the three summary lines.  [min] and [max]
    raise on an empty list; [main] gets here with non-empty lists only. *)
Definition summary (steps : list Z) (val_losses : list float)
  : M (list event) :=
  match py_min Z.ltb steps, py_max Z.ltb steps,
        py_min float_lt val_losses, py_max float_lt val_losses with
  | Some lo, Some hi, Some flo, Some fhi =>
      ret [Print ("Found " ++ str_of_nat (length steps)
                  ++ " validation loss measurements");
           Print ("Steps: " ++ str_of_Z lo ++ " to " ++ str_of_Z hi);
           Print ("Loss range: " ++ format_4f flo ++ " to "
                  ++ format_4f fhi)]
  | _, _, _, _ => raise (ValueError EmptySequence)
  end.

(** ** The extractor *)

(** The two lists [parse_log_file] builds. *)
Record locals := { steps : list Z; val_losses : list float }.

Definition init : locals := {| steps := []; val_losses := [] |}.

Definition group_text (m : captures) (n : nat) : str :=
  match group m n with
  | Some s => s
  | None => []
  end.

(** What the file holds at a path. *)
Inductive fs_entry :=
| TextFile (lines : list str)       (* what iterating the file yields *)
| Unreadable.                       (* a directory, or no permission *)

Record args := {
  log_file : string;
  output : option string;
  title : option string
}.

(** How the process ends. *)
Inductive termination :=
| Finished                          (* main returned *)
| SysExit (status : Z)
| Uncaught (e : exn).

Definition exit_status (t : termination) : Z :=
  match t with
  | Finished => 0
  | SysExit n => n
  | Uncaught _ => 1
  end.

Section Interpreter.
(** [sys.get_int_max_str_digits()]: 4300 by default, 0 when the limit
    is switched off (and in versions of Python that have none). *)
Variable int_max_str_digits : nat.

(** [str(Path(s))], which normalises the spelling of a path. *)
Variable path_str : string -> string.

(** What the environment makes of the plotting calls. *)
Variable plt : plt_env.

(** [int(s)] for the strings groups 1 and 2 can hold (any character
    other than a digit is reported as a ValueError here). *)
Definition py_int (s : str) : M Z :=
  if is_nil s || negb (forallb is_digit s) then raise (ValueError BadInt)
  else if (MAX_STR_DIGITS_THRESHOLD <? length s)%nat
          && (0 <? int_max_str_digits)%nat
          && (int_max_str_digits <? length s)%nat
  then raise (ValueError IntTooLong)
  else ret (int_of_digits s).

(** Lines 29-31: the three conversions of a match, in order. *)
Definition convert (m : captures) : M (Z * float) :=
  step <- py_int (group_text m 1) ;;
  total_steps <- py_int (group_text m 2) ;;
  val_loss <- py_float (group_text m 3) ;;
  ret (step, val_loss).

(** Lines 27-33: the body of the loop on one line. *)
Definition body (line : str) (st : locals) : completion * locals :=
  match search pattern line with
  | None => (Normal, st)
  | Some m =>
      match convert m with
      | inl e => (Raised e, st)
      | inr (step, val_loss) =>
          (Normal, {| steps := steps st ++ [step];
                      val_losses := val_losses st ++ [val_loss] |})
      end
  end.

(** Line 26: [for line in f]. *)
Fixpoint for_lines (lines : list str) (st : locals) : completion * locals :=
  match lines with
  | [] => (Normal, st)
  | line :: rest =>
      match body line st with
      | (Normal, st') => for_lines rest st'
      | (Raised e, st') => (Raised e, st')
      end
  end.

(** The run of [parse_log_file] on the lines of the opened file, with
    the locals as they are when it ends. *)
Definition parse_log_file_run (lines : list str) : completion * locals :=
  for_lines lines init.

(** [parse_log_file], lines 17-35: the pair it returns, or the
    exception that leaves it. *)
Definition parse_log_file (lines : list str) : M (list Z * list float) :=
  match parse_log_file_run lines with
  | (Normal, st) => ret (steps st, val_losses st)
  | (Raised e, _) => raise e
  end.

(** [main], lines 69-86, after the arguments are parsed: what is
    printed and plotted, and how the process ends. *)
Definition main (fs : string -> option fs_entry) (a : args)
  : list event * termination :=
  match fs (log_file a) with
  | None =>
      ([Print ("Error: Log file not found: " ++ log_file a)], SysExit 1)
  | Some entry =>
      let parsing := Print ("Parsing log file: " ++ path_str (log_file a)) in
      let opened := match entry with
                    | TextFile lines => parse_log_file lines
                    | Unreadable => raise OSError
                    end in
      match opened with
      | inl e => ([parsing], Uncaught e)
      | inr (steps, val_losses) =>
          if is_nil steps then
            ([parsing;
              Print "No validation loss data found in the log file.";
              Print "Make sure the training has run validation steps."],
             SysExit 1)
          else
            match summary steps val_losses with
            | inl e => ([parsing], Uncaught e)
            | inr lines =>
                let r := plot_loss plt steps val_losses
                                   (output a) (title a) in
                (parsing :: lines ++ fst r,
                 match snd r with
                 | Normal => Finished
                 | Raised e => Uncaught e
                 end)
            end
      end
  end.
End Interpreter.


(** ** Notions the properties are stated with *)

(** The text a regular expression matches and the groups it records. *)
Inductive denotes : regex -> str -> captures -> captures -> Prop :=
| D_Lit l caps :
    denotes (Lit l) l caps caps
| D_Plus cls a caps :
    a <> [] -> forallb cls a = true ->
    denotes (Plus cls) a caps caps
| D_Group n r a caps caps' :
    denotes r a caps caps' ->
    denotes (Group n r) a caps ((n, a) :: caps')
| D_Cat r1 r2 a1 a2 c0 c1 c2 :
    denotes r1 a1 c0 c1 -> denotes r2 a2 c1 c2 ->
    denotes (Cat r1 r2) (a1 ++ a2) c0 c2.

(** A well-formed occurrence of the pattern: the three groups and the
    white space between the totals and the loss. *)
Record occurrence (g1 g2 ws g3 : str) : Prop := {
  occ_g1 : g1 <> [] /\ forallb is_digit g1 = true;
  occ_g2 : g2 <> [] /\ forallb is_digit g2 = true;
  occ_ws : ws <> [] /\ forallb is_space ws = true;
  occ_g3 : g3 <> [] /\ forallb is_digit_or_dot g3 = true
}.

Definition occurrence_text (g1 g2 ws g3 : str) : str :=
  lit "step:" ++ g1 ++ lit "/" ++ g2 ++ ws ++ lit "val_loss:" ++ g3.

Definition groups (g1 g2 g3 : str) : captures :=
  [(3%nat, g3); (2%nat, g2); (1%nat, g1)].

(** [s] does not go on with a character of the class. *)
Definition stops (cls : ascii -> bool) (s : str) : bool :=
  match s with
  | [] => true
  | c :: _ => negb (cls c)
  end.

(** A float that is neither NaN nor below zero: +0, a positive finite
    number or +infinity. *)
Definition nonneg_not_nan (x : float) : bool :=
  match x with
  | S754_zero false | S754_finite false _ _ | S754_infinity false => true
  | _ => false
  end.

(** A finite float that is not below zero. *)
Definition finite_nonneg (x : float) : bool :=
  match x with
  | S754_zero false | S754_finite false _ _ => true
  | _ => false
  end.

(** Number of decimal points in a string. *)
Definition dots (s : str) : nat := length (filter is_dot s).

(** The line holds a match of the pattern. *)
Definition matching (line : str) : bool :=
  match search pattern line with
  | Some _ => true
  | None => false
  end.

(** [d] appended to [st], list by list. *)
Definition extend (st d : locals) : locals :=
  {| steps := steps st ++ steps d;
     val_losses := val_losses st ++ val_losses d |}.

(** The record the loop appends for a line. *)
Definition record_of (lim : nat) (line : str) (rec : Z * float) : Prop :=
  exists m, search pattern line = Some m /\ convert lim m = inr rec.

(** The float Python reads from a decimal literal such as [2.5]. *)
Definition py_float_lit (s : string) : float :=
  match py_float (lit s) with
  | inr x => x
  | inl _ => S754_nan
  end.

(** A file system with one log, [log.txt], of the given lines. *)
Definition one_log (lines : list str) (p : string) : option fs_entry :=
  if String.eqb p "log.txt" then Some (TextFile lines) else None.

Definition no_options (p : string) : args :=
  {| log_file := p; output := None; title := None |}.

(** ** Reading the file as text *)

Definition LF : ascii := "010"%char.
Definition CR : ascii := "013"%char.

(** Universal newlines, as a file opened with mode ['r'] reads them: a
    CR, with the LF that follows it if there is one, is read as LF.
    [after_cr] says that the character before was a CR. *)
Fixpoint translate_newlines (after_cr : bool) (t : str) : str :=
  match t with
  | [] => []
  | c :: t' =>
      if Ascii.eqb c CR then LF :: translate_newlines true t'
      else if Ascii.eqb c LF then
             if after_cr then translate_newlines false t'
             else LF :: translate_newlines false t'
           else c :: translate_newlines false t'
  end.

(** The lines of a text, each with the line feed that ends it. *)
Fixpoint split_lines (t : str) : list str :=
  match t with
  | [] => []
  | c :: t' =>
      if Ascii.eqb c LF then [c] :: split_lines t'
      else match split_lines t' with
           | [] => [[c]]
           | l :: ls => (c :: l) :: ls
           end
  end.

(** Line 26, [for line in f]: the lines a file of decoded content [raw]
    yields. *)
Definition file_lines (raw : str) : list str :=
  split_lines (translate_newlines false raw).

(** ** More notions for the properties *)

(** The least number that rounds to infinity in binary64, half an ulp
    above the largest float. *)
Definition float_overflow : Z := 2 ^ 1024 - 2 ^ 970.

(** The decimal a token of digits and dots denotes: its digits as an
    integer, and how many of them follow the dot. *)
Definition token_decimal (s : str) : Z * nat :=
  let (ip, rest) := span is_digit s in
  (int_of_digits (ip ++ tl rest), length (tl rest)).

(** The token denotes a number below [float_overflow]. *)
Definition in_float_range (s : str) : bool :=
  let (p, k) := token_decimal s in
  p <? float_overflow * 10 ^ Z.of_nat k.

(** The val_loss token of a line that matches. *)
Definition loss_token (line : str) : str :=
  match search pattern line with
  | Some m => group_text m 3
  | None => []
  end.

(** [int] takes a string of this many digits. *)
Definition within_limit (lim : nat) (s : str) : bool :=
  negb ((MAX_STR_DIGITS_THRESHOLD <? length s)%nat
        && (0 <? lim)%nat && (lim <? length s)%nat).

(** A call of the plotting library. *)
Definition is_plt (ev : event) : bool :=
  match ev with
  | Print _ => false
  | _ => true
  end.

(** * Properties *)

(** ** What the matcher accepts *)

Lemma ascii_eqb_true (a b : ascii) : Ascii.eqb a b = true -> a = b.
Proof. intro H. now apply Ascii.eqb_eq. Qed.

Lemma strip_prefix_Some (p s s' : str) :
  strip_prefix p s = Some s' -> s = p ++ s'.
Proof.
  revert s; induction p as [|a p IH]; intros s H; simpl in *.
  - now inversion H.
  - destruct s as [|b s]; [discriminate|].
    destruct (Ascii.eqb a b) eqn:E; [|discriminate].
    apply ascii_eqb_true in E; subst b.
    f_equal. now apply IH.
Qed.

Lemma strip_prefix_app (p s : str) : strip_prefix p (p ++ s) = Some s.
Proof.
  induction p as [|a p IH]; simpl; [reflexivity|].
  now rewrite Ascii.eqb_refl.
Qed.

Lemma consumed_app (a s' : str) : consumed (a ++ s') s' = a.
Proof.
  unfold consumed. rewrite length_app.
  replace (length a + length s' - length s')%nat with (length a) by lia.
  rewrite firstn_app, firstn_all, Nat.sub_diag. simpl. apply app_nil_r.
Qed.

Lemma plus_bt_sound {R} cls (s : str) (k : str -> option R) (res : R) :
  plus_bt cls s k = Some res ->
  exists a s', s = a ++ s' /\ a <> [] /\ forallb cls a = true
               /\ k s' = Some res.
Proof.
  revert res; induction s as [|c s IH]; intros res H; simpl in H.
  - discriminate.
  - destruct (cls c) eqn:Hc; [|discriminate].
    destruct (plus_bt cls s k) as [r|] eqn:E.
    + inversion H; subst r.
      destruct (IH res eq_refl) as (a & s' & -> & _ & Ha & Hk).
      exists (c :: a), s'. repeat split; simpl; try easy.
      now rewrite Hc, Ha.
    + exists [c], s. repeat split; simpl; try easy.
      now rewrite Hc.
Qed.

(** Whatever the matcher returns comes from the continuation, called
    after a text the expression denotes. *)
Lemma bt_sound {R} (r : regex) :
  forall (s : str) caps (k : str -> captures -> option R) (res : R),
    bt r s caps k = Some res ->
    exists a s' caps', s = a ++ s' /\ denotes r a caps caps'
                       /\ k s' caps' = Some res.
Proof.
  induction r as [l|cls|n r IH|r1 IH1 r2 IH2]; intros s caps k res H;
    simpl in H.
  - destruct (strip_prefix l s) as [s'|] eqn:E; [|discriminate].
    apply strip_prefix_Some in E.
    exists l, s', caps. repeat split; [assumption|constructor|assumption].
  - apply plus_bt_sound in H. destruct H as (a & s' & -> & Hne & Ha & Hk).
    exists a, s', caps. repeat split; [now constructor|assumption].
  - apply IH in H. destruct H as (a & s' & caps' & -> & Hd & Hk).
    rewrite consumed_app in Hk.
    exists a, s', ((n, a) :: caps'). repeat split; [now constructor|assumption].
  - apply IH1 in H. destruct H as (a1 & s1 & c1 & -> & Hd1 & H).
    apply IH2 in H. destruct H as (a2 & s2 & c2 & -> & Hd2 & Hk).
    exists (a1 ++ a2), s2, c2. repeat split.
    + now rewrite app_assoc.
    + econstructor; eassumption.
    + assumption.
Qed.

Lemma pattern_denotes (a : str) (m : captures) :
  denotes pattern a [] m ->
  exists g1 g2 ws g3,
    a = occurrence_text g1 g2 ws g3 /\ m = groups g1 g2 g3
    /\ occurrence g1 g2 ws g3.
Proof.
  unfold pattern. intro H.
  repeat match goal with
         | H : denotes (Cat _ _) _ _ _ |- _ => inversion H; subst; clear H
         | H : denotes (Group _ _) _ _ _ |- _ => inversion H; subst; clear H
         | H : denotes (Lit _) _ _ _ |- _ => inversion H; subst; clear H
         | H : denotes (Plus _) _ _ _ |- _ => inversion H; subst; clear H
         end.
  eexists _, _, _, _. split; [reflexivity|]. split; [reflexivity|].
  constructor; now split.
Qed.

(** A match at the start of [s] is a well-formed occurrence. *)
Lemma match_here_sound (s : str) (m : captures) :
  match_here pattern s = Some m ->
  exists g1 g2 ws g3 rest,
    s = occurrence_text g1 g2 ws g3 ++ rest /\ m = groups g1 g2 g3
    /\ occurrence g1 g2 ws g3.
Proof.
  unfold match_here. intro H. apply bt_sound in H.
  destruct H as (a & s' & caps' & -> & Hd & Hk). inversion Hk; subst caps'.
  apply pattern_denotes in Hd. destruct Hd as (g1 & g2 & ws & g3 & -> & -> & Ho).
  now exists g1, g2, ws, g3, s'.
Qed.

(** [search] returns the match at the leftmost position that has one. *)
Lemma search_leftmost (r : regex) (s : str) (m : captures) :
  search r s = Some m ->
  exists pre tail,
    s = pre ++ tail /\ match_here r tail = Some m
    /\ forall n, (n < length pre)%nat -> match_here r (skipn n s) = None.
Proof.
  induction s as [|c s IH]; simpl.
  - destruct (match_here r []) eqn:E; [|discriminate].
    intro H; inversion H; subst. exists [], []. repeat split; try easy.
  - destruct (match_here r (c :: s)) eqn:E.
    + intro H; inversion H; subst. exists [], (c :: s).
      repeat split; try easy.
    + intro H. destruct (IH H) as (pre & tail & -> & Hm & Hleft).
      exists (c :: pre), tail. repeat split; try easy.
      intros [|n] Hn; simpl in *; [assumption|].
      apply Hleft. lia.
Qed.

Lemma search_None (r : regex) (s : str) :
  search r s = None -> forall n, match_here r (skipn n s) = None.
Proof.
  induction s as [|c s IH]; simpl.
  - destruct (match_here r []) eqn:E; [discriminate|].
    intros _ [|n]; assumption.
  - destruct (match_here r (c :: s)) eqn:E; [discriminate|].
    intros H [|n]; simpl; [assumption|]. now apply IH.
Qed.

Lemma search_sound (line : str) (m : captures) :
  search pattern line = Some m ->
  exists pre g1 g2 ws g3 rest,
    line = pre ++ occurrence_text g1 g2 ws g3 ++ rest
    /\ m = groups g1 g2 g3 /\ occurrence g1 g2 ws g3.
Proof.
  intro H. apply search_leftmost in H.
  destruct H as (pre & tail & -> & Hm & _).
  apply match_here_sound in Hm.
  destruct Hm as (g1 & g2 & ws & g3 & rest & -> & -> & Ho).
  now exists pre, g1, g2, ws, g3, rest.
Qed.

Lemma plus_bt_complete {R} cls (a s' : str) (k : str -> option R) (res : R) :
  a <> [] -> forallb cls a = true -> stops cls s' = true ->
  k s' = Some res ->
  plus_bt cls (a ++ s') k = Some res.
Proof.
  intros Hne Ha Hs Hk. induction a as [|c a IH]; [congruence|].
  simpl in *. apply andb_prop in Ha. destruct Ha as [Hc Ha]. rewrite Hc.
  destruct a as [|c' a].
  - simpl. destruct s' as [|d s']; simpl in *; [assumption|].
    apply negb_true_iff in Hs. now rewrite Hs.
  - now rewrite IH.
Qed.

Lemma space_not_digit (c : ascii) : is_space c = true -> is_digit c = false.
Proof.
  unfold is_space, is_digit. intro H.
  destruct (48 <=? code c) eqn:Lo; [|reflexivity].
  destruct (code c <=? 57) eqn:Hi; [|reflexivity].
  apply Z.leb_le in Lo. apply Z.leb_le in Hi.
  repeat rewrite orb_true_iff in H. repeat rewrite andb_true_iff in H.
  repeat rewrite Z.leb_le in H. repeat rewrite Z.eqb_eq in H.
  lia.
Qed.

Lemma stops_app cls cls' (a s : str) :
  a <> [] -> forallb cls' a = true ->
  (forall c, cls' c = true -> cls c = false) ->
  stops cls (a ++ s) = true.
Proof.
  intros Hne Ha Hdis. destruct a as [|c a]; [congruence|].
  simpl in *. apply andb_prop in Ha. destruct Ha as [Hc _].
  now rewrite (Hdis c Hc).
Qed.

(** A well-formed occurrence at the start of the input, with a third
    group that cannot be extended, is matched with exactly its groups. *)
Lemma match_here_complete (g1 g2 ws g3 rest : str) :
  occurrence g1 g2 ws g3 -> stops is_digit_or_dot rest = true ->
  match_here pattern (occurrence_text g1 g2 ws g3 ++ rest)
  = Some (groups g1 g2 g3).
Proof.
  intros [[N1 D1] [N2 D2] [Nw Dw] [N3 D3]] Hrest.
  unfold match_here, pattern, occurrence_text.
  repeat rewrite <- app_assoc.
  cbn [bt]. rewrite strip_prefix_app.
  apply plus_bt_complete; [assumption|assumption|reflexivity|].
  rewrite consumed_app, strip_prefix_app.
  apply plus_bt_complete; [assumption|assumption| |].
  { apply stops_app with (cls' := is_space); auto using space_not_digit. }
  rewrite consumed_app.
  apply plus_bt_complete; [assumption|assumption|reflexivity|].
  rewrite strip_prefix_app.
  apply plus_bt_complete; [assumption|assumption|assumption|].
  now rewrite consumed_app.
Qed.

(** ** The conversions *)

Lemma digit_value_nonneg (c : ascii) : is_digit c = true -> 0 <= digit_value c.
Proof.
  unfold is_digit, digit_value. intro H.
  apply andb_prop in H. destruct H as [H _]. apply Z.leb_le in H. lia.
Qed.

Lemma fold_digits_nonneg (s : str) (acc : Z) :
  forallb is_digit s = true -> 0 <= acc ->
  0 <= fold_left (fun acc c => 10 * acc + digit_value c) s acc.
Proof.
  revert acc; induction s as [|c s IH]; intros acc Hs Hacc;
    cbn [fold_left forallb] in *.
  - assumption.
  - apply andb_prop in Hs. destruct Hs as [Hc Hs].
    apply IH; [assumption|]. pose proof (digit_value_nonneg c Hc). lia.
Qed.

Lemma int_of_digits_nonneg (s : str) :
  forallb is_digit s = true -> 0 <= int_of_digits s.
Proof. intro H. apply fold_digits_nonneg; [assumption|lia]. Qed.

(** [int] only ever returns a natural number here. *)
Lemma py_int_nonneg (lim : nat) (s : str) (n : Z) :
  py_int lim s = inr n -> 0 <= n.
Proof.
  unfold py_int, raise, ret. intro H.
  destruct (is_nil s || negb (forallb is_digit s)) eqn:E; [discriminate|].
  apply orb_false_elim in E. destruct E as [_ E].
  apply negb_false_iff in E.
  match type of H with
  | (if ?c then _ else _) = _ => destruct c; [discriminate|]
  end.
  inversion H; subst. now apply int_of_digits_nonneg.
Qed.

(** On a non-empty string of digits [int] can fail in one way only. *)
Lemma py_int_digits (lim : nat) (s : str) :
  s <> [] -> forallb is_digit s = true ->
  py_int lim s = inr (int_of_digits s)
  \/ (py_int lim s = inl (ValueError IntTooLong)
      /\ (MAX_STR_DIGITS_THRESHOLD < length s)%nat
      /\ (0 < lim < length s)%nat).
Proof.
  intros Hne Hd. unfold py_int. rewrite Hd.
  destruct s as [|c s]; [congruence|]. cbn [is_nil negb orb].
  match goal with
  | |- context [if ?c then _ else _] => destruct c eqn:E
  end; [right|left; reflexivity].
  repeat rewrite andb_true_iff in E. repeat rewrite Nat.ltb_lt in E.
  repeat split; try reflexivity; lia.
Qed.

Lemma iter_pos_invariant {A} (P : A -> Prop) (f : A -> A) :
  (forall x, P x -> P (f x)) ->
  forall n x, P x -> P (iter_pos f n x).
Proof.
  intros Hf. induction n as [n IH|n IH|]; intros x Hx; simpl; auto.
Qed.

Lemma shr_1_nonneg (mrs : shr_record) :
  0 <= shr_m mrs -> 0 <= shr_m (shr_1 mrs).
Proof.
  destruct mrs as [m r s]. simpl.
  destruct m as [|[p|p|]|[p|p|]]; simpl; lia.
Qed.

Lemma shr_nonneg (mrs : shr_record) (e n : Z) :
  0 <= shr_m mrs -> 0 <= shr_m (fst (shr mrs e n)).
Proof.
  intro H. unfold shr. destruct n as [|p|p]; simpl; try assumption.
  apply (iter_pos_invariant (fun x => 0 <= shr_m x)); [|assumption].
  apply shr_1_nonneg.
Qed.

Lemma shr_fexp_nonneg (m e : Z) (l : location) :
  0 <= m -> 0 <= shr_m (fst (shr_fexp prec emax m e l)).
Proof.
  intro H. unfold shr_fexp. apply shr_nonneg.
  destruct l as [|[]]; assumption.
Qed.

Lemma round_nearest_even_nonneg (m : Z) (l : location) :
  0 <= m -> 0 <= round_nearest_even m l.
Proof.
  intro H. unfold round_nearest_even.
  destruct l as [|[]]; try destruct (Z.even m); lia.
Qed.

Lemma binary_round_aux_nonneg (mx ex : Z) (lx : location) :
  0 <= mx -> nonneg_not_nan (binary_round_aux prec emax false mx ex lx) = true.
Proof.
  intro H. unfold binary_round_aux.
  pose proof (shr_fexp_nonneg mx ex lx H) as H1.
  destruct (shr_fexp prec emax mx ex lx) as [mrs' e']. simpl in H1.
  pose proof (round_nearest_even_nonneg _ (loc_of_shr_record mrs') H1) as H2.
  pose proof (shr_fexp_nonneg _ e' loc_Exact H2) as H3.
  destruct (shr_fexp prec emax _ e' loc_Exact) as [mrs'' e'']. simpl in H3.
  destruct (shr_m mrs'') as [|m|m]; [reflexivity| |lia].
  destruct (e'' <=? emax - prec); reflexivity.
Qed.

(** The float of a decimal is never NaN and never below zero. *)
Lemma float_of_decimal_nonneg (p : Z) (k : nat) :
  0 <= p -> nonneg_not_nan (float_of_decimal p k) = true.
Proof.
  intro Hp. unfold float_of_decimal, SFdiv_core_binary.
  set (e' := Z.min _ _). set (m' := match 0 - 0 - e' with
                                     | 0 => p | Z.pos _ => _ | Z.neg _ => 0 end).
  assert (Hm : 0 <= m').
  { subst m'. destruct (0 - 0 - e'); [assumption| |lia].
    rewrite Z.shiftl_mul_pow2 by lia. apply Z.mul_nonneg_nonneg; [assumption|].
    apply Z.pow_nonneg; lia. }
  assert (Hq : 0 <= m' / 10 ^ Z.of_nat k).
  { apply Z.div_pos; [assumption|]. apply Z.pow_pos_nonneg; lia. }
  unfold Z.div in Hq.
  destruct (Z.div_eucl m' (10 ^ Z.of_nat k)) as [q r].
  now apply binary_round_aux_nonneg.
Qed.

Lemma span_spec cls (s a b : str) :
  span cls s = (a, b) ->
  s = a ++ b /\ forallb cls a = true /\ stops cls b = true.
Proof.
  revert a b; induction s as [|c s IH]; intros a b H; simpl in H.
  - inversion H; subst. now repeat split.
  - destruct (cls c) eqn:Hc.
    + destruct (span cls s) as [a' b'] eqn:E. inversion H; subst.
      destruct (IH a' b eq_refl) as (-> & Ha & Hb).
      repeat split; simpl; [now rewrite Hc, Ha|assumption].
    + inversion H; subst. repeat split; simpl. now rewrite Hc.
Qed.

Lemma digit_not_dot (c : ascii) : is_digit c = true -> is_dot c = false.
Proof.
  unfold is_digit, is_dot. intro H. apply andb_prop in H.
  destruct H as [H _]. apply Z.leb_le in H. apply Z.eqb_neq. lia.
Qed.

Lemma digits_no_dots (s : str) : forallb is_digit s = true -> dots s = 0%nat.
Proof.
  unfold dots. induction s as [|c s IH]; simpl; [reflexivity|].
  intro H. apply andb_prop in H. destruct H as [Hc Hs].
  rewrite (digit_not_dot c Hc). now apply IH.
Qed.

Lemma dots_app (a b : str) : dots (a ++ b) = (dots a + dots b)%nat.
Proof. unfold dots. now rewrite filter_app, length_app. Qed.

(** When [float] returns, the string had at most one decimal point and
    the result is neither NaN nor below zero. *)
Lemma py_float_returns (s : str) (x : float) :
  py_float s = inr x ->
  (dots s <= 1)%nat /\ nonneg_not_nan x = true.
Proof.
  unfold py_float, raise, ret.
  destruct (span is_digit s) as [ip rest] eqn:E.
  apply span_spec in E. destruct E as (-> & Hip & _).
  destruct rest as [|c fp].
  - destruct (is_nil ip); [discriminate|]. intro H; inversion H; subst.
    rewrite app_nil_r, (digits_no_dots ip Hip). split; [lia|].
    apply float_of_decimal_nonneg. now apply int_of_digits_nonneg.
  - destruct (is_dot c && forallb is_digit fp
              && negb (is_nil ip && is_nil fp)) eqn:C; [|discriminate].
    repeat rewrite andb_true_iff in C. destruct C as [[Hc Hfp] _].
    intro H; inversion H; subst. split.
    + rewrite dots_app, (digits_no_dots ip Hip).
      change (c :: fp) with ([c] ++ fp).
      rewrite dots_app, (digits_no_dots fp Hfp).
      unfold dots; simpl. rewrite Hc. simpl. lia.
    + apply float_of_decimal_nonneg. apply int_of_digits_nonneg.
      rewrite forallb_app. now rewrite Hip, Hfp.
Qed.

(** The only exception [float] raises. *)
Lemma py_float_raises (s : str) (e : exn) :
  py_float s = inl e -> e = ValueError BadFloat.
Proof.
  unfold py_float, raise, ret.
  destruct (span is_digit s) as [ip rest].
  destruct rest as [|c fp].
  - destruct (is_nil ip); congruence.
  - destruct (is_dot c && forallb is_digit fp
              && negb (is_nil ip && is_nil fp)); congruence.
Qed.

(** ** The loop *)

Lemma extend_init_l (d : locals) : extend init d = d.
Proof. now destruct d. Qed.

Lemma extend_init_r (st : locals) : extend st init = st.
Proof. destruct st. unfold extend. simpl. now rewrite !app_nil_r. Qed.

Lemma extend_assoc (a b c : locals) :
  extend (extend a b) c = extend a (extend b c).
Proof. unfold extend. simpl. now rewrite !app_assoc. Qed.

Lemma search_first (r : regex) (pre tail : str) (m : captures) :
  match_here r tail = Some m ->
  (forall n, (n < length pre)%nat ->
             match_here r (skipn n (pre ++ tail)) = None) ->
  search r (pre ++ tail) = Some m.
Proof.
  intros Hm. induction pre as [|c pre IH]; intros Hleft.
  - simpl. destruct tail; simpl; now rewrite Hm.
  - pose proof (Hleft 0%nat ltac:(simpl; lia)) as H0.
    cbn [app search skipn] in *. rewrite H0.
    apply IH. intros n Hn. apply (Hleft (S n)). simpl; lia.
Qed.

Section Loop.
Variable lim : nat.

Lemma body_no_match (line : str) (st : locals) :
  search pattern line = None -> body lim line st = (Normal, st).
Proof. unfold body. now intros ->. Qed.

(** The body does not look at the lists it appends to. *)
Lemma body_extend (line : str) (st : locals) :
  body lim line st
  = let (c, d) := body lim line init in (c, extend st d).
Proof.
  unfold body. destruct (search pattern line) as [m|].
  - destruct (convert lim m) as [e|[step val_loss]]; simpl.
    + now rewrite extend_init_r.
    + reflexivity.
  - now rewrite extend_init_r.
Qed.

Lemma for_lines_extend (lines : list str) :
  forall st,
    for_lines lim lines st
    = let (c, d) := for_lines lim lines init in (c, extend st d).
Proof.
  induction lines as [|line rest IH]; intro st; cbn [for_lines].
  - now rewrite extend_init_r.
  - rewrite (body_extend line st).
    destruct (body lim line init) as [[|e] d].
    + rewrite (IH (extend st d)), (IH d).
      destruct (for_lines lim rest init) as [c d'].
      now rewrite extend_assoc.
    + reflexivity.
Qed.

Lemma for_lines_app (l1 l2 : list str) (st : locals) :
  for_lines lim (l1 ++ l2) st
  = match for_lines lim l1 st with
    | (Normal, st') => for_lines lim l2 st'
    | (Raised e, st') => (Raised e, st')
    end.
Proof.
  revert st; induction l1 as [|line l1 IH]; intro st; cbn [app for_lines].
  - reflexivity.
  - destruct (body lim line st) as [[|e] st']; [apply IH|reflexivity].
Qed.

(** One line appends at most one step and one loss, and as many of
    the one as of the other. *)
Lemma body_appends (line : str) (st : locals) :
  forall c st', body lim line st = (c, st') ->
    (st' = st
     \/ exists rec, c = Normal /\ record_of lim line rec
                    /\ st' = extend st {| steps := [fst rec];
                                          val_losses := [snd rec] |}).
Proof.
  intros c st'. unfold body, record_of.
  destruct (search pattern line) as [m|]; [|intro H; inversion H; now left].
  destruct (convert lim m) as [e|[step val_loss]] eqn:E;
    intro H; inversion H; subst; [now left|right].
  exists (step, val_loss). repeat split. now exists m.
Qed.

(** The two lists grow together. *)
Lemma for_lines_aligned (lines : list str) :
  forall st c st',
    length (steps st) = length (val_losses st) ->
    for_lines lim lines st = (c, st') ->
    length (steps st') = length (val_losses st').
Proof.
  induction lines as [|line rest IH]; intros st c st' Hst; cbn [for_lines].
  - intro H; inversion H; now subst.
  - destruct (body lim line st) as [c1 st1] eqn:B.
    assert (H1 : length (steps st1) = length (val_losses st1)).
    { destruct (body_appends _ _ _ _ B) as [->|(rec & _ & _ & ->)];
        [assumption|].
      simpl. rewrite !length_app. simpl. lia. }
    destruct c1 as [|e]; [now apply IH|].
    intro H; inversion H; now subst.
Qed.

(** A normal run returns the records of the matching lines, in the
    order of the lines. *)
Lemma for_lines_records (lines : list str) :
  forall st',
    for_lines lim lines init = (Normal, st') ->
    exists recs,
      Forall2 (record_of lim) (filter matching lines) recs
      /\ steps st' = map fst recs /\ val_losses st' = map snd recs.
Proof.
  induction lines as [|line rest IH]; intro st'; cbn [for_lines].
  - intro H; inversion H; subst. exists []. now repeat split.
  - destruct (body lim line init) as [c1 st1] eqn:B.
    destruct c1 as [|e]; [|discriminate].
    rewrite for_lines_extend.
    destruct (for_lines lim rest init) as [c d] eqn:F.
    intro H; inversion H; subst. destruct (IH d eq_refl) as (recs & HF & Hs & Hl).
    unfold body in B. cbn [filter]. unfold matching at 1.
    destruct (search pattern line) as [m|] eqn:S.
    + destruct (convert lim m) as [e|[step val_loss]] eqn:E; [discriminate|].
      inversion B; subst. exists ((step, val_loss) :: recs).
      repeat split; simpl; try congruence.
      constructor; [|assumption]. now exists m.
    + inversion B; subst. exists recs. rewrite extend_init_l. now repeat split.
Qed.

Lemma for_lines_no_match (lines : list str) (st : locals) :
  Forall (fun line => search pattern line = None) lines ->
  for_lines lim lines st = (Normal, st).
Proof.
  induction 1 as [|line rest Hl _ IH]; cbn [for_lines]; [reflexivity|].
  now rewrite (body_no_match _ _ Hl).
Qed.

(** A run that raises stops at its first raising line, with the
    locals the lines before it left. *)
Lemma for_lines_raised (lines : list str) :
  forall st e st',
    for_lines lim lines st = (Raised e, st') ->
    exists pre bad post,
      lines = pre ++ bad :: post
      /\ for_lines lim pre st = (Normal, st')
      /\ body lim bad st' = (Raised e, st').
Proof.
  induction lines as [|line rest IH]; intros st e st'; cbn [for_lines].
  - discriminate.
  - destruct (body lim line st) as [[|e1] st1] eqn:B.
    + intro H. destruct (IH _ _ _ H) as (pre & bad & post & -> & Hp & Hb).
      exists (line :: pre), bad, post. repeat split; [|assumption].
      cbn [for_lines]. now rewrite B.
    + intro H; inversion H; subst.
      destruct (body_appends _ _ _ _ B) as [->|(rec & Hc & _)];
        [|discriminate].
      exists [], line, rest. now repeat split.
Qed.

(** A line that raises makes every run over it raise. *)
Lemma for_lines_Exists_raises (lines : list str) :
  Exists (fun line => exists e, fst (body lim line init) = Raised e) lines ->
  forall st, exists e st', for_lines lim lines st = (Raised e, st').
Proof.
  induction 1 as [line rest (e & He)|line rest _ IH]; intro st;
    cbn [for_lines]; rewrite (body_extend line st).
  - destruct (body lim line init) as [c d]. simpl in He. subst c.
    now eexists _, _.
  - destruct (body lim line init) as [[|e] d]; [apply IH|now eexists _, _].
Qed.
End Loop.

Section Extractor.
Variable lim : nat.

Lemma parse_log_file_inr (lines : list str) (s : list Z) (l : list float) :
  parse_log_file lim lines = inr (s, l)
  <-> for_lines lim lines init = (Normal, {| steps := s; val_losses := l |}).
Proof.
  unfold parse_log_file, parse_log_file_run, ret, raise.
  destruct (for_lines lim lines init) as [[|e] [s' l']]; simpl;
    split; intro H; inversion H; now subst.
Qed.

Lemma parse_log_file_inl (lines : list str) (e : exn) :
  parse_log_file lim lines = inl e
  <-> exists st, for_lines lim lines init = (Raised e, st).
Proof.
  unfold parse_log_file, parse_log_file_run, ret, raise.
  destruct (for_lines lim lines init) as [[|e'] st]; split.
  - discriminate.
  - intros (st' & H). discriminate.
  - intro H; inversion H; subst. now exists st.
  - intros (st' & H). inversion H; now subst.
Qed.

Lemma py_int_raises (s : str) (e : exn) :
  py_int lim s = inl e -> exists why, e = ValueError why.
Proof.
  unfold py_int, raise, ret.
  repeat match goal with
         | |- context [if ?c then _ else _] => destruct c
         end; intro H; inversion H; now eexists.
Qed.

(** What the three conversions return, and the one kind of exception
    that leaves them. *)
Lemma convert_returns (m : captures) (n : Z) (x : float) :
  convert lim m = inr (n, x) ->
  py_int lim (group_text m 1) = inr n
  /\ py_float (group_text m 3) = inr x
  /\ 0 <= n /\ nonneg_not_nan x = true.
Proof.
  unfold convert, bind, ret.
  destruct (py_int lim (group_text m 1)) as [e|n1] eqn:E1; [discriminate|].
  destruct (py_int lim (group_text m 2)) as [e|n2]; [discriminate|].
  destruct (py_float (group_text m 3)) as [e|x3] eqn:E3; [discriminate|].
  intro H; inversion H; subst.
  split; [reflexivity|]. split; [reflexivity|]. split.
  - now apply py_int_nonneg in E1.
  - now apply py_float_returns in E3.
Qed.

Lemma convert_raises (m : captures) (e : exn) :
  convert lim m = inl e -> exists why, e = ValueError why.
Proof.
  unfold convert, bind, ret.
  destruct (py_int lim (group_text m 1)) as [e1|n1] eqn:E1.
  { intro H; inversion H; subst. eapply py_int_raises; eassumption. }
  destruct (py_int lim (group_text m 2)) as [e2|n2] eqn:E2.
  { intro H; inversion H; subst. eapply py_int_raises; eassumption. }
  destruct (py_float (group_text m 3)) as [e3|x3] eqn:E3; [|discriminate].
  intro H; inversion H; subst. apply py_float_raises in E3.
  eexists; exact E3.
Qed.

(** A match whose third group [float] rejects: the conversions raise. *)
Lemma convert_bad_float (m : captures) (e : exn) :
  py_float (group_text m 3) = inl e ->
  exists why, convert lim m = inl (ValueError why).
Proof.
  intro Hf. destruct (convert lim m) as [e'|[n x]] eqn:C.
  - destruct (convert_raises _ _ C) as (why & ->). now exists why.
  - apply convert_returns in C. destruct C as (_ & C & _). congruence.
Qed.
(** After a match the groups are within what the models of [int] and
    [float] cover, and the body raises for one of two reasons only: too
    many digits for [int], or a token [float] rejects. *)
Lemma body_raises_reason (line : str) (st st' : locals) (e : exn) :
  body lim line st = (Raised e, st') ->
  e = ValueError IntTooLong \/ e = ValueError BadFloat.
Proof.
  unfold body. destruct (search pattern line) as [m|] eqn:S; [|discriminate].
  destruct (search_sound _ _ S)
    as (pre & g1 & g2 & ws & g3 & rest & _ & -> & [[N1 D1] [N2 D2] _ _]).
  unfold convert, bind, ret.
  change (group_text (groups g1 g2 g3) 1) with g1.
  change (group_text (groups g1 g2 g3) 2) with g2.
  change (group_text (groups g1 g2 g3) 3) with g3.
  destruct (py_int_digits lim g1 N1 D1) as [->|[-> _]];
    [|intro H; inversion H; now left].
  destruct (py_int_digits lim g2 N2 D2) as [->|[-> _]];
    [|intro H; inversion H; now left].
  destruct (py_float g3) as [e3|x] eqn:F; [|discriminate].
  intro H; inversion H; subst. right. now apply py_float_raises in F.
Qed.

Lemma parse_log_file_aligned (lines : list str) (s : list Z) (l : list float) :
  parse_log_file lim lines = inr (s, l) -> length s = length l.
Proof.
  intro H. apply parse_log_file_inr in H.
  apply (for_lines_aligned lim lines init Normal _ eq_refl H).
Qed.

Lemma parse_log_file_no_match (lines : list str) :
  Forall (fun line => search pattern line = None) lines ->
  parse_log_file lim lines = inr ([], []).
Proof.
  intro H. apply parse_log_file_inr. now apply for_lines_no_match.
Qed.
End Extractor.

(** ** When a float overflows *)

Lemma fexp_eq (x : Z) : fexp prec emax x = Z.max (x - 53) (-1074).
Proof. reflexivity. Qed.

Lemma digits2_pos_bounds (p : positive) :
  2 ^ (Zpos (digits2_pos p) - 1) <= Zpos p < 2 ^ Zpos (digits2_pos p).
Proof.
  induction p as [p IH|p IH|]; cbn [digits2_pos].
  - rewrite Pos2Z.inj_succ.
    replace (Z.succ (Zpos (digits2_pos p)) - 1)
      with (Z.succ (Zpos (digits2_pos p) - 1)) by lia.
    rewrite !Z.pow_succ_r by lia. lia.
  - rewrite Pos2Z.inj_succ.
    replace (Z.succ (Zpos (digits2_pos p)) - 1)
      with (Z.succ (Zpos (digits2_pos p) - 1)) by lia.
    rewrite !Z.pow_succ_r by lia. lia.
  - cbn. lia.
Qed.

Lemma Zdigits2_bounds (q : Z) :
  0 < q -> 0 < Zdigits2 q /\ 2 ^ (Zdigits2 q - 1) <= q < 2 ^ Zdigits2 q.
Proof.
  destruct q as [|p|p]; try lia. intros _. cbn [Zdigits2].
  split; [lia|apply digits2_pos_bounds].
Qed.

Lemma Zdigits2_nonneg (q : Z) : 0 <= Zdigits2 q.
Proof. destruct q; cbn; lia. Qed.

Lemma Zdigits2_le (q n : Z) : 0 <= n -> 0 <= q < 2 ^ n -> Zdigits2 q <= n.
Proof.
  intros Hn [H0 Hq]. destruct (Z.eq_dec q 0) as [->|Hz]; [cbn; lia|].
  destruct (Zdigits2_bounds q) as (Hd & Hlo & _); [lia|].
  destruct (Z_le_gt_dec (Zdigits2 q) n) as [|Hgt]; [assumption|].
  assert (2 ^ n <= 2 ^ (Zdigits2 q - 1)) by (apply Z.pow_le_mono_r; lia).
  lia.
Qed.

Lemma Zdigits2_gt (q n : Z) : 0 <= n -> 2 ^ n <= q -> n < Zdigits2 q.
Proof.
  intros Hn Hq.
  assert (0 < 2 ^ n) by (apply Z.pow_pos_nonneg; lia).
  destruct (Zdigits2_bounds q) as (Hd & _ & Hhi); [lia|].
  destruct (Z_lt_ge_dec n (Zdigits2 q)) as [|Hge]; [assumption|].
  assert (2 ^ Zdigits2 q <= 2 ^ n) by (apply Z.pow_le_mono_r; lia).
  lia.
Qed.

Lemma iter_pos_nat {A} (f : A -> A) (p : positive) :
  forall x, iter_pos f p x = Nat.iter (Pos.to_nat p) f x.
Proof.
  induction p as [p IH|p IH|]; intro x; cbn [iter_pos].
  - rewrite !IH, Pos2Nat.inj_xI.
    replace (S (2 * Pos.to_nat p))%nat
      with (Pos.to_nat p + (Pos.to_nat p + 1))%nat by lia.
    rewrite !Nat.iter_add. reflexivity.
  - rewrite !IH, Pos2Nat.inj_xO.
    replace (2 * Pos.to_nat p)%nat
      with (Pos.to_nat p + Pos.to_nat p)%nat by lia.
    now rewrite Nat.iter_add.
  - reflexivity.
Qed.

Lemma shr_1_spec (m : Z) (r s : bool) :
  0 <= m ->
  shr_m (shr_1 {| shr_m := m; shr_r := r; shr_s := s |}) = m / 2
  /\ shr_r (shr_1 {| shr_m := m; shr_r := r; shr_s := s |}) = Z.odd m.
Proof.
  intro Hm. rewrite <- Z.div2_div.
  destruct m as [|[p|p|]|p]; try lia; split; reflexivity.
Qed.

Lemma iter_shr_1_spec (n : nat) (mrs : shr_record) :
  0 <= shr_m mrs ->
  shr_m (Nat.iter (S n) shr_1 mrs) = shr_m mrs / 2 ^ Z.of_nat (S n)
  /\ shr_r (Nat.iter (S n) shr_1 mrs) = Z.odd (shr_m mrs / 2 ^ Z.of_nat n).
Proof.
  intro Hm. induction n as [|n IH].
  - destruct mrs as [m r s].
    change (Nat.iter 1 shr_1 {| shr_m := m; shr_r := r; shr_s := s |})
      with (shr_1 {| shr_m := m; shr_r := r; shr_s := s |}).
    cbn [shr_m] in *.
    destruct (shr_1_spec m r s Hm) as [-> ->].
    change (2 ^ Z.of_nat 1) with 2. change (2 ^ Z.of_nat 0) with 1.
    now rewrite Z.div_1_r.
  - destruct IH as [IHm IHr].
    change (Nat.iter (S (S n)) shr_1 mrs)
      with (shr_1 (Nat.iter (S n) shr_1 mrs)).
    destruct (Nat.iter (S n) shr_1 mrs) as [m' r' s'].
    cbn [shr_m shr_r] in IHm, IHr.
    assert (Hm' : 0 <= m').
    { rewrite IHm. apply Z.div_pos; [assumption|]. apply Z.pow_pos_nonneg; lia. }
    destruct (shr_1_spec m' r' s' Hm') as [-> ->]. rewrite IHm. split.
    + rewrite Z.div_div by (try apply Z.pow_pos_nonneg; lia).
      f_equal. rewrite (Nat2Z.inj_succ (S n)), Z.pow_succ_r by lia. lia.
    + reflexivity.
Qed.

Lemma shr_spec (mrs : shr_record) (e n : Z) :
  0 <= shr_m mrs ->
  (n <= 0 -> shr mrs e n = (mrs, e))
  /\ (0 < n ->
      snd (shr mrs e n) = e + n
      /\ shr_m (fst (shr mrs e n)) = shr_m mrs / 2 ^ n
      /\ shr_r (fst (shr mrs e n)) = Z.odd (shr_m mrs / 2 ^ (n - 1))).
Proof.
  intro Hm. destruct n as [|p|p]; split; intro Hn; try lia; try reflexivity.
  unfold shr. cbn [fst snd]. split; [reflexivity|].
  rewrite iter_pos_nat.
  destruct (Pos2Nat.is_succ p) as (k & Hk). rewrite Hk.
  destruct (iter_shr_1_spec k mrs Hm) as [-> ->].
  rewrite <- Hk, positive_nat_Z.
  replace (Z.of_nat k) with (Zpos p - 1) by lia. now split.
Qed.

Lemma shr_record_of_loc_m (m : Z) (l : location) :
  shr_m (shr_record_of_loc m l) = m.
Proof. destruct l as [|[]]; reflexivity. Qed.

(** The two things [shr_fexp] does: nothing when the exponent is at
    least the one of the format, a shift up to it otherwise. *)
Lemma shr_fexp_spec (m e : Z) (l : location) :
  0 <= m ->
  let f := fexp prec emax (Zdigits2 m + e) in
  (f <= e -> shr_fexp prec emax m e l = (shr_record_of_loc m l, e))
  /\ (e < f ->
      snd (shr_fexp prec emax m e l) = f
      /\ shr_m (fst (shr_fexp prec emax m e l)) = m / 2 ^ (f - e)
      /\ shr_r (fst (shr_fexp prec emax m e l)) = Z.odd (m / 2 ^ (f - e - 1))).
Proof.
  intros Hm f. unfold shr_fexp. fold f.
  assert (Hm' : 0 <= shr_m (shr_record_of_loc m l))
    by now rewrite shr_record_of_loc_m.
  destruct (shr_spec (shr_record_of_loc m l) e (f - e) Hm') as [H0 H1].
  split; intro H.
  - apply H0. lia.
  - destruct H1 as (Hs & Hq & Hr); [lia|].
    rewrite Hs, Hq, Hr, shr_record_of_loc_m. repeat split. lia.
Qed.

Lemma rne_bounds (m : Z) (l : location) :
  m <= round_nearest_even m l <= m + 1.
Proof.
  unfold round_nearest_even. destruct l as [|[]]; try destruct (Z.even m); lia.
Qed.

Lemma rne_r_false (x : shr_record) :
  shr_r x = false ->
  round_nearest_even (shr_m x) (loc_of_shr_record x) = shr_m x.
Proof. destruct x as [m [] []]; cbn; congruence. Qed.

Lemma rne_r_true_odd (x : shr_record) :
  shr_r x = true -> Z.odd (shr_m x) = true ->
  round_nearest_even (shr_m x) (loc_of_shr_record x) = shr_m x + 1.
Proof.
  destruct x as [m [] []]; cbn; try discriminate; intros _ Ho;
    try reflexivity.
  now rewrite <- Z.negb_odd, Ho.
Qed.

(** After the first shift the mantissa has at most 53 bits. *)
Lemma shr_fexp_small (q e : Z) (l : location) :
  0 <= q -> 0 <= shr_m (fst (shr_fexp prec emax q e l)) < 2 ^ 53.
Proof.
  intro Hq. destruct (shr_fexp_spec q e l Hq) as [H0 H1].
  set (f := fexp prec emax (Zdigits2 q + e)) in *.
  assert (Hf : Zdigits2 q + e - 53 <= f)
    by (subst f; rewrite fexp_eq; lia).
  pose proof (Zdigits2_nonneg q) as Hd.
  assert (Hlt : q < 2 ^ Zdigits2 q).
  { destruct (Z.eq_dec q 0) as [->|]; [cbn; lia|].
    apply Zdigits2_bounds. lia. }
  destruct (Z_le_gt_dec f e) as [Hle|Hgt].
  - rewrite (H0 Hle). cbn [fst]. rewrite shr_record_of_loc_m.
    split; [assumption|].
    eapply Z.lt_le_trans; [exact Hlt|]. apply Z.pow_le_mono_r; lia.
  - destruct H1 as (_ & -> & _); [lia|]. split.
    + apply Z.div_pos; [assumption|]. apply Z.pow_pos_nonneg; lia.
    + apply Z.div_lt_upper_bound; [apply Z.pow_pos_nonneg; lia|].
      rewrite <- Z.pow_add_r by lia.
      eapply Z.lt_le_trans; [exact Hlt|]. apply Z.pow_le_mono_r; lia.
Qed.

Lemma round_is_infinity (q e : Z) (l : location) :
  binary_round_aux prec emax false q e l = S754_infinity false
  <-> (let '(mrs1, e1) := shr_fexp prec emax q e l in
       let '(mrs2, e2) :=
         shr_fexp prec emax
                  (round_nearest_even (shr_m mrs1) (loc_of_shr_record mrs1))
                  e1 loc_Exact in
       0 < shr_m mrs2 /\ 971 < e2).
Proof.
  unfold binary_round_aux.
  destruct (shr_fexp prec emax q e l) as [mrs1 e1].
  destruct (shr_fexp prec emax _ e1 loc_Exact) as [mrs2 e2].
  destruct (shr_m mrs2) as [|m|m].
  - split; [discriminate|lia].
  - change (emax - prec) with 971.
    destruct (Z.leb_spec e2 971); split; try discriminate; try lia;
      reflexivity.
  - split; [discriminate|lia].
Qed.

Ltac clear_bodies :=
  repeat match goal with x := _ |- _ => clearbody x end.
Ltac zlia := clear_bodies; lia.

(** Rounding to binary64 gives infinity exactly from [2^1024 - 2^970]
    on. *)
Lemma round_overflow_iff (q e : Z) (l : location) :
  0 <= q -> e <= 0 ->
  (binary_round_aux prec emax false q e l = S754_infinity false
   <-> 18014398509481983 * 2 ^ (970 - e) <= q).
Proof.
  intros Hq He. rewrite round_is_infinity.
  pose proof (shr_fexp_spec q e l Hq) as S1.
  pose proof (shr_fexp_small q e l Hq) as B1.
  destruct (shr_fexp prec emax q e l) as [mrs1 e1].
  cbn [fst snd] in S1, B1.
  change (2 ^ 53) with 9007199254740992 in B1.
  set (m1 := shr_m mrs1) in *.
  set (m1r := round_nearest_even m1 (loc_of_shr_record mrs1)).
  pose proof (rne_bounds m1 (loc_of_shr_record mrs1)) as Hr. fold m1r in Hr.
  assert (Hm1r : 0 <= m1r) by lia.
  pose proof (shr_fexp_spec m1r e1 loc_Exact Hm1r) as S2.
  destruct (shr_fexp prec emax m1r e1 loc_Exact) as [mrs2 e2].
  cbn [fst snd] in S2.
  set (dq := Zdigits2 q) in *. set (d2 := Zdigits2 m1r) in *.
  pose proof (Zdigits2_nonneg q) as Hdq. fold dq in Hdq.
  rewrite !fexp_eq in S1, S2.
  set (K := 2 ^ (970 - e)).
  assert (HK : 0 < K) by (apply Z.pow_pos_nonneg; lia).
  assert (E971 : 2 ^ (971 - e) = 2 * K).
  { replace (971 - e) with (Z.succ (970 - e)) by lia.
    now rewrite Z.pow_succ_r by lia. }
  assert (E1023 : 2 ^ (1023 - e) = 9007199254740992 * K).
  { replace (1023 - e) with (53 + (970 - e)) by lia.
    now rewrite Z.pow_add_r by lia. }
  assert (E1024 : 2 ^ (1024 - e) = 18014398509481984 * K).
  { replace (1024 - e) with (54 + (970 - e)) by lia.
    now rewrite Z.pow_add_r by lia. }
  assert (Hd2 : d2 <= 54).
  { subst d2. apply Zdigits2_le; [lia|].
    change (2 ^ 54) with 18014398509481984. zlia. }
  assert (He1 : e1 = Z.max e (Z.max (dq + e - 53) (-1074))).
  { destruct S1 as [S10 S11].
    destruct (Z_le_gt_dec (Z.max (dq + e - 53) (-1074)) e) as [Hle|Hgt].
    - specialize (S10 Hle). inversion S10. zlia.
    - destruct S11 as (Hs & _); zlia. }
  (* the second shift moves by one bit at most and keeps a mantissa of
     53 bits or more alive *)
  assert (Hm2 : 4503599627370496 <= m1r -> 0 < shr_m mrs2).
  { intro Hbig. destruct S2 as [S20 S21].
    destruct (Z_le_gt_dec (Z.max (d2 + e1 - 53) (-1074)) e1) as [Hle|Hgt].
    - specialize (S20 Hle). injection S20 as Em _. rewrite Em.
      cbn [shr_m shr_record_of_loc]. zlia.
    - destruct S21 as (_ & Hm & _); [zlia|]. rewrite Hm.
      assert (E : Z.max (d2 + e1 - 53) (-1074) - e1 = 1) by zlia.
      rewrite E. change (2 ^ 1) with 2. apply Z.div_str_pos; zlia. }
  assert (He2 : e2 = Z.max e1 (Z.max (d2 + e1 - 53) (-1074))).
  { destruct S2 as [S20 S21].
    destruct (Z_le_gt_dec (Z.max (d2 + e1 - 53) (-1074)) e1) as [Hle|Hgt].
    - specialize (S20 Hle). inversion S20. zlia.
    - destruct S21 as (Hs & _); zlia. }
  clear S2. fold K. split.
  - (* overflow happened: the value is at least the threshold *)
    intros [Hpos Hbig].
    destruct (Z_le_gt_dec (18014398509481983 * K) q) as [|Hlow];
      [assumption|].
    exfalso.
    destruct (Z_le_gt_dec (dq + e) 1023) as [Hsmall|HD]; [zlia|].
    assert (Hq0 : 0 < q).
    { destruct (Z.eq_dec q 0) as [E|]; [|lia]. subst dq. rewrite E in HD.
      cbn in HD. lia. }
    assert (Hdq' : dq <= 1024 - e).
    { subst dq. apply Zdigits2_le; [lia|]. rewrite E1024. zlia. }
    assert (HD' : dq + e = 1024) by zlia.
    destruct S1 as [_ S11]. destruct S11 as (_ & Hm & Hrb); [zlia|].
    replace (Z.max (dq + e - 53) (-1074) - e) with (971 - e) in Hm by zlia.
    replace (Z.max (dq + e - 53) (-1074) - e - 1) with (970 - e) in Hrb
      by zlia.
    fold K in Hrb. rewrite E971 in Hm.
    assert (Hh : q / K < 18014398509481983).
    { apply Z.div_lt_upper_bound; [assumption|]. zlia. }
    assert (Hh0 : 0 <= q / K) by (apply Z.div_pos; zlia).
    assert (Hm1 : m1 = q / K / 2).
    { rewrite Hm. rewrite Z.div_div by zlia. f_equal. zlia. }
    set (h := q / K) in *.
    assert (Hsmall : m1r < 9007199254740992).
    { destruct (Z.odd h) eqn:Oh.
      - rewrite Zodd_mod in Oh. apply Z.eqb_eq in Oh.
        pose proof (Z.div_mod h 2 ltac:(lia)) as Hdm.
        rewrite Oh, <- Hm1 in Hdm. zlia.
      - subst m1r. unfold m1. rewrite rne_r_false by assumption.
        fold m1.
        pose proof (Z.div_mod h 2 ltac:(lia)) as Hdm.
        pose proof (Z.mod_pos_bound h 2 ltac:(lia)) as Hmb.
        rewrite <- Hm1 in Hdm. set (r := h mod 2) in *. zlia. }
    assert (d2 <= 53).
    { subst d2. apply Zdigits2_le; [lia|].
      change (2 ^ 53) with 9007199254740992. zlia. }
    zlia.
  - (* the value is at least the threshold: overflow *)
    intro Hbig.
    assert (Hq0 : 0 < q) by zlia.
    assert (HD : 1023 - e < dq).
    { subst dq. apply Zdigits2_gt; [lia|]. rewrite E1023. zlia. }
    destruct (Zdigits2_bounds q Hq0) as (_ & Hlo & Hhi). fold dq in Hlo, Hhi.
    destruct S1 as [_ S11]. destruct S11 as (_ & Hm & Hrb); [zlia|].
    replace (Z.max (dq + e - 53) (-1074) - e) with (dq - 53) in Hm by zlia.
    replace (Z.max (dq + e - 53) (-1074) - e - 1) with (dq - 54) in Hrb
      by zlia.
    assert (Hm1 : 4503599627370496 <= m1).
    { rewrite Hm. apply Z.div_le_lower_bound; [apply Z.pow_pos_nonneg; zlia|].
      change 4503599627370496 with (2 ^ 52).
      rewrite <- Z.pow_add_r by zlia.
      replace (dq - 53 + 52) with (dq - 1) by zlia. assumption. }
    split; [apply Hm2; zlia|].
    destruct (Z_le_gt_dec 1025 (dq + e)) as [|HD']; [zlia|].
    assert (Edq : dq = 1024 - e) by zlia.
    replace (dq - 54) with (970 - e) in Hrb by zlia. fold K in Hrb.
    replace (dq - 53) with (971 - e) in Hm by zlia. rewrite E971 in Hm.
    rewrite Edq, E1024 in Hhi.
    assert (Hh : 18014398509481983 <= q / K).
    { apply Z.div_le_lower_bound; [assumption|]. zlia. }
    assert (Hh' : q / K < 18014398509481984).
    { apply Z.div_lt_upper_bound; [assumption|]. zlia. }
    assert (Eh : q / K = 18014398509481983).
    { set (h := q / K) in *. zlia. }
    assert (Em1 : m1 = 9007199254740991).
    { rewrite Hm. replace (q / (2 * K)) with (q / K / 2).
      - rewrite Eh. reflexivity.
      - rewrite Z.div_div by zlia. f_equal. zlia. }
    assert (Em1r : m1r = 9007199254740992).
    { subst m1r. unfold m1. rewrite rne_r_true_odd.
      - fold m1. zlia.
      - rewrite Hrb, Eh. reflexivity.
      - fold m1. rewrite Em1. reflexivity. }
    assert (53 < d2).
    { subst d2. apply Zdigits2_gt; [lia|]. rewrite Em1r. reflexivity. }
    zlia.
Qed.

Lemma float_overflow_eq : float_overflow = 18014398509481983 * 2 ^ 970.
Proof. reflexivity. Qed.

(** [float_of_decimal] gives infinity exactly from [float_overflow]
    on. *)
Lemma float_of_decimal_infinite_iff (p : Z) (k : nat) :
  0 <= p ->
  (float_of_decimal p k = S754_infinity false
   <-> float_overflow * 10 ^ Z.of_nat k <= p).
Proof.
  intro Hp. unfold float_of_decimal, SFdiv_core_binary.
  set (d := 10 ^ Z.of_nat k).
  assert (Hd : 0 < d) by (apply Z.pow_pos_nonneg; lia).
  set (e' := Z.min _ (0 - 0)).
  assert (He' : e' <= 0) by (subst e'; lia).
  set (m' := match 0 - 0 - e' with
             | 0 => p | Z.pos _ => _ | Z.neg _ => 0 end).
  assert (Em : m' = p * 2 ^ (- e')).
  { subst m'. replace (0 - 0 - e') with (- e') by lia.
    destruct (- e') as [|s|s] eqn:E; [|now rewrite Z.shiftl_mul_pow2|lia].
    change (2 ^ 0) with 1. lia. }
  pose proof (Z.pow_pos_nonneg 2 (- e') ltac:(lia) ltac:(lia)) as HS.
  assert (Hm : 0 <= m') by (rewrite Em; apply Z.mul_nonneg_nonneg; lia).
  assert (Eq : fst (Z.div_eucl m' d) = m' / d) by reflexivity.
  destruct (Z.div_eucl m' d) as [q r]. cbn [fst] in Eq.
  assert (Hq : 0 <= q) by (rewrite Eq; apply Z.div_pos; lia).
  rewrite (round_overflow_iff q e' (new_location d r) Hq He').
  replace (970 - e') with (970 + - e') by lia.
  rewrite Z.pow_add_r by lia. rewrite float_overflow_eq, Eq, Em.
  set (S := 2 ^ (- e')) in *. set (N := 18014398509481983 * 2 ^ 970).
  replace (18014398509481983 * (2 ^ 970 * S)) with (N * S)
    by (subst N; ring).
  assert (HN : 0 <= N) by (subst N; apply Z.mul_nonneg_nonneg;
                           [lia|apply Z.pow_nonneg; lia]).
  split; intro H.
  - assert (H1 : d * (N * S) <= p * S).
    { eapply Z.le_trans; [apply Z.mul_le_mono_nonneg_l; [lia|exact H]|].
      apply Z.mul_div_le. lia. }
    apply (Z.mul_le_mono_pos_r _ _ S HS).
    replace (N * d * S) with (d * (N * S)) by ring. exact H1.
  - apply Z.div_le_lower_bound; [lia|].
    replace (d * (N * S)) with (N * d * S) by ring.
    apply Z.mul_le_mono_nonneg_r; lia.
Qed.

(** ... and a finite float below it. *)
Lemma float_of_decimal_finite_iff (p : Z) (k : nat) :
  0 <= p ->
  (finite_nonneg (float_of_decimal p k) = true
   <-> p < float_overflow * 10 ^ Z.of_nat k).
Proof.
  intro Hp. pose proof (float_of_decimal_infinite_iff p k Hp) as Hinf.
  pose proof (float_of_decimal_nonneg p k Hp) as Hnn.
  destruct (float_of_decimal p k) as [[]|[]| |[] m e]; try discriminate;
    cbn [finite_nonneg]; split; intro H; try reflexivity; try discriminate.
  - destruct (Z_lt_ge_dec p (float_overflow * 10 ^ Z.of_nat k)) as [|G];
      [assumption|].
    assert (E : S754_zero false = S754_infinity false)
      by (apply Hinf; lia). discriminate.
  - destruct Hinf as [Hinf _]. specialize (Hinf eq_refl). lia.
  - destruct (Z_lt_ge_dec p (float_overflow * 10 ^ Z.of_nat k)) as [|G];
      [assumption|].
    assert (E : S754_finite false m e = S754_infinity false)
      by (apply Hinf; lia). discriminate.
Qed.

(** The float [float] returns is the one of the decimal the token
    denotes. *)
Lemma py_float_value (s : str) (x : float) :
  py_float s = inr x ->
  x = float_of_decimal (fst (token_decimal s)) (snd (token_decimal s)).
Proof.
  unfold py_float, token_decimal, raise, ret.
  destruct (span is_digit s) as [ip rest].
  destruct rest as [|c fp]; cbn [tl fst snd].
  - rewrite app_nil_r. destruct (is_nil ip); [discriminate|].
    intro H; now inversion H.
  - destruct (is_dot c && forallb is_digit fp
              && negb (is_nil ip && is_nil fp)); [|discriminate].
    intro H; now inversion H.
Qed.

(** A loss [float] returns is finite exactly when its token is in
    range. *)
Lemma py_float_finite_iff (s : str) (x : float) :
  py_float s = inr x ->
  (finite_nonneg x = true <-> in_float_range s = true).
Proof.
  intro H. rewrite (py_float_value s x H). unfold in_float_range.
  assert (Hp : 0 <= fst (token_decimal s)).
  { revert H. unfold py_float, token_decimal, raise, ret.
    destruct (span is_digit s) as [ip rest] eqn:E.
    apply span_spec in E. destruct E as (_ & Hip & _).
    destruct rest as [|c fp]; cbn [tl fst].
    - intros _. apply int_of_digits_nonneg. now rewrite app_nil_r.
    - destruct (is_dot c && forallb is_digit fp
                && negb (is_nil ip && is_nil fp)) eqn:C; [|discriminate].
      repeat rewrite andb_true_iff in C. destruct C as [[_ Hfp] _].
      intros _. apply int_of_digits_nonneg.
      now rewrite forallb_app, Hip, Hfp. }
  destruct (token_decimal s) as [p k]. cbn [fst snd] in *.
  rewrite (float_of_decimal_finite_iff p k Hp). symmetry. apply Z.ltb_lt.
Qed.

(** ** Calls that may raise *)

Lemma run_calls_prefix (env : plt_env) (calls : list event) :
  exists rest,
    calls = fst (run_calls env calls) ++ rest
    /\ (snd (run_calls env calls) = Normal <-> rest = []).
Proof.
  induction calls as [|ev calls (rest & IH1 & IH2)]; cbn [run_calls].
  - exists []. now split.
  - destruct (call_outcome env ev) as [e|].
    + exists (ev :: calls). split; [reflexivity|]. split; discriminate.
    + exists rest. cbn [fst snd]. split; [|assumption].
      cbn [app]. now f_equal.
Qed.

Lemma run_calls_normal (env : plt_env) (calls : list event) :
  snd (run_calls env calls) = Normal -> fst (run_calls env calls) = calls.
Proof.
  intro H. destruct (run_calls_prefix env calls) as (rest & E & Hn).
  apply Hn in H. subst rest. now rewrite app_nil_r in E.
Qed.

Lemma run_calls_In (env : plt_env) (calls : list event) (ev : event) :
  In ev (fst (run_calls env calls)) -> In ev calls.
Proof.
  intro H. destruct (run_calls_prefix env calls) as (rest & E & _).
  rewrite E. apply in_or_app. now left.
Qed.

Lemma run_calls_returns (env : plt_env) (calls : list event) :
  (forall ev, In ev calls -> call_outcome env ev = None) ->
  run_calls env calls = (calls, Normal).
Proof.
  induction calls as [|ev calls IH]; intro H; cbn [run_calls];
    [reflexivity|].
  rewrite (H ev (or_introl eq_refl)).
  rewrite IH by (intros ev' Hin; apply H; now right). reflexivity.
Qed.

(** The one call of [plot_loss] that looks at the series. *)
Lemma call_outcome_returns (env : plt_env) (steps : list Z)
      (losses : list float) (output_file title : option string) :
  length steps = length losses -> forallb fits_float steps = true ->
  (forall ev, env ev = None) ->
  forall ev, In ev (plot_calls steps losses output_file title) ->
             call_outcome env ev = None.
Proof.
  intros Hlen Hfit Henv ev Hin. unfold call_outcome.
  destruct ev; try apply Henv; try reflexivity.
  assert (E : xs = steps /\ ys = losses).
  { unfold plot_calls in Hin. destruct (is_nil steps).
    - destruct Hin as [H|[]]; discriminate.
    - apply in_app_or in Hin. destruct Hin as [Hin|Hin].
      + simpl in Hin.
        repeat match goal with
               | H : _ \/ _ |- _ => destruct H
               end; try discriminate; try contradiction.
        match goal with H : PltPlot _ _ = PltPlot _ _ |- _ =>
                          inversion H end. now split.
      + destruct (truthy output_file); simpl in Hin;
          repeat match goal with
                 | H : _ \/ _ |- _ => destruct H
                 end; try discriminate; contradiction. }
  destruct E as [-> ->]. unfold plot_args_error.
  rewrite Hlen, Nat.eqb_refl, Hfit. cbn [negb]. apply Henv.
Qed.

Lemma py_int_within (lim : nat) (s : str) :
  s <> [] -> forallb is_digit s = true ->
  py_int lim s = if within_limit lim s then inr (int_of_digits s)
                 else inl (ValueError IntTooLong).
Proof.
  intros Hne Hd. unfold py_int, within_limit, raise, ret. rewrite Hd.
  destruct s as [|c s]; [congruence|]. cbn [is_nil negb orb].
  now destruct ((MAX_STR_DIGITS_THRESHOLD <? length (c :: s))%nat
                && (0 <? lim)%nat && (lim <? length (c :: s))%nat).
Qed.

(** * The claims *)

(** C1, as stated: the third group of every match has at most one
    decimal point.  The line [step:1/2 val_loss:1.2.3] matches with the
    third group [1.2.3]. *)
Lemma C1_counterexample :
  ~ (forall (line : str) (m : captures) (g3 : str),
        search pattern line = Some m -> group m 3 = Some g3 ->
        forallb is_digit_or_dot g3 = true /\ (dots g3 <= 1)%nat).
Proof.
  intro H.
  destruct (H (lit "step:1/2 val_loss:1.2.3") _ (lit "1.2.3")
              eq_refl eq_refl) as [_ Hd].
  vm_compute in Hd. lia.
Qed.

(** C1, amended: the val_loss token of every match is a non-empty run
    of digits and decimal points, with no exponent marker and no sign;
    the pattern does not bound the number of decimal points.  [float]
    rejects a token with more than one with a ValueError, so a line
    with such a token gives no record: the loop body raises a
    ValueError and appends nothing, the one of [float], unless [int]
    has raised before it because group 1 or group 2 has more digits
    than the limit on integer strings. *)
Theorem C1_loss_token_digits_and_dots (line : str) (m : captures) :
  search pattern line = Some m ->
  exists g1 g2 g3,
    m = groups g1 g2 g3 /\ group m 3 = Some g3 /\ g3 <> []
    /\ forallb is_digit_or_dot g3 = true
    /\ (forall c, In c (lit "eE+-") -> ~ In c g3)
    /\ ((1 < dots g3)%nat ->
        py_float g3 = inl (ValueError BadFloat)
        /\ forall lim st,
            body lim line st
            = (Raised (ValueError
                         (if within_limit lim g1 && within_limit lim g2
                          then BadFloat else IntTooLong)),
               st)).
Proof.
  intro Hs. destruct (search_sound _ _ Hs)
    as (pre & g1 & g2 & ws & g3 & rest & _ & ->
        & [[N1 D1] [N2 D2] _ [N3 D3]]).
  exists g1, g2, g3. split; [reflexivity|]. split; [reflexivity|].
  split; [assumption|]. split; [assumption|]. split.
  - intros c Hc Hin. rewrite forallb_forall in D3. specialize (D3 c Hin).
    simpl in Hc. destruct Hc as [<-|[<-|[<-|[<-|[]]]]]; discriminate.
  - intro Hdots.
    assert (Hf : py_float g3 = inl (ValueError BadFloat)).
    { destruct (py_float g3) as [e|x] eqn:F.
      - apply py_float_raises in F. now subst e.
      - apply py_float_returns in F. lia. }
    split; [assumption|].
    intros lim st. unfold body. rewrite Hs. unfold convert, bind, ret.
    change (group_text (groups g1 g2 g3) 1) with g1.
    change (group_text (groups g1 g2 g3) 2) with g2.
    change (group_text (groups g1 g2 g3) 3) with g3.
    rewrite (py_int_within lim g1 N1 D1), (py_int_within lim g2 N2 D2), Hf.
    destruct (within_limit lim g1); [|reflexivity].
    destruct (within_limit lim g2); reflexivity.
Qed.

Lemma C1_loss_token_witness :
  exists g1 g2 g3,
    groups (lit "1") (lit "2") (lit "1.2.3") = groups g1 g2 g3
    /\ group (groups (lit "1") (lit "2") (lit "1.2.3")) 3 = Some g3
    /\ g3 <> []
    /\ forallb is_digit_or_dot g3 = true
    /\ (forall c, In c (lit "eE+-") -> ~ In c g3)
    /\ ((1 < dots g3)%nat ->
        py_float g3 = inl (ValueError BadFloat)
        /\ forall lim st,
            body lim (lit "step:1/2 val_loss:1.2.3") st
            = (Raised (ValueError
                         (if within_limit lim g1 && within_limit lim g2
                          then BadFloat else IntTooLong)),
               st)).
Proof.
  apply (C1_loss_token_digits_and_dots (lit "step:1/2 val_loss:1.2.3")).
  reflexivity.
Defined.

(** C2: a line that matches the pattern but whose val_loss token
    [float] rejects makes the loop body raise a ValueError with the two
    lists as they were (nothing is appended for the line, no value
    stands in for the loss); a source that holds such a line makes
    [parse_log_file] raise, whatever the other lines are, and [main]
    ends with that exception uncaught. *)
Theorem C2_malformed_loss_fails (lim : nat) :
  (forall line m e st,
      search pattern line = Some m ->
      py_float (group_text m 3) = inl e ->
      exists why, body lim line st = (Raised (ValueError why), st))
  /\ (forall lines,
        Exists (fun line => exists m e,
                    search pattern line = Some m
                    /\ py_float (group_text m 3) = inl e) lines ->
        exists why,
          parse_log_file lim lines = inl (ValueError why)
          /\ forall path_str plt fs a,
              fs (log_file a) = Some (TextFile lines) ->
              main lim path_str plt fs a
              = ([Print ("Parsing log file: " ++ path_str (log_file a))],
                 Uncaught (ValueError why))).
Proof.
  assert (Hbody : forall line m e st,
             search pattern line = Some m ->
             py_float (group_text m 3) = inl e ->
             exists why, body lim line st = (Raised (ValueError why), st)).
  { intros line m e st Hs Hf. unfold body. rewrite Hs.
    destruct (convert_bad_float lim _ _ Hf) as (why & ->). now exists why. }
  split; [exact Hbody|].
  intros lines Hex.
  assert (Hr : exists e st, for_lines lim lines init = (Raised e, st)).
  { apply for_lines_Exists_raises. eapply Exists_impl; [|exact Hex].
    intros line (m & e & Hs & Hf).
    destruct (Hbody line m e init Hs Hf) as (why & ->). now eexists. }
  destruct Hr as (e & st & Hr).
  destruct (for_lines_raised _ _ _ _ _ Hr) as (pre & bad & post & _ & _ & Hb).
  assert (Hwhy : exists why, e = ValueError why).
  { unfold body in Hb. destruct (search pattern bad) as [m|]; [|discriminate].
    destruct (convert lim m) as [e'|[n x]] eqn:C; [|discriminate].
    inversion Hb; subst. eapply convert_raises; eassumption. }
  destruct Hwhy as (why & ->). exists why.
  assert (Hp : parse_log_file lim lines = inl (ValueError why)).
  { apply parse_log_file_inl. now exists st. }
  split; [assumption|].
  intros path_str plt fs a Hfs. unfold main. now rewrite Hfs, Hp.
Qed.

Lemma C2_malformed_loss_witness :
  (exists why,
      body 4300 (lit "step:2/9 val_loss:...") init
      = (Raised (ValueError why), init))
  /\ exists why,
      parse_log_file 4300 [lit "step:1/9 val_loss:2.5";
                           lit "step:2/9 val_loss:..."]
      = inl (ValueError why)
      /\ forall path_str plt fs a,
          fs (log_file a)
          = Some (TextFile [lit "step:1/9 val_loss:2.5";
                            lit "step:2/9 val_loss:..."]) ->
          main 4300 path_str plt fs a
          = ([Print ("Parsing log file: " ++ path_str (log_file a))],
             Uncaught (ValueError why)).
Proof.
  split.
  - apply (proj1 (C2_malformed_loss_fails 4300)
                 (lit "step:2/9 val_loss:...")
                 (groups (lit "2") (lit "9") (lit "..."))
                 (ValueError BadFloat)); reflexivity.
  - apply (proj2 (C2_malformed_loss_fails 4300)).
    apply Exists_cons_tl. apply Exists_cons_hd.
    exists (groups (lit "2") (lit "9") (lit "...")), (ValueError BadFloat).
    split; reflexivity.
Defined.

(** C3: the two lists [parse_log_file] returns have the same length,
    so both are empty or neither is; the two lists are that way too
    when the loop is left by an exception. *)
Theorem C3_series_aligned (lim : nat) (lines : list str) :
  (forall steps losses,
      parse_log_file lim lines = inr (steps, losses) ->
      length steps = length losses
      /\ (steps = [] <-> losses = []))
  /\ (forall c st,
        parse_log_file_run lim lines = (c, st) ->
        length (steps st) = length (val_losses st)).
Proof.
  assert (Hrun : forall c st,
             parse_log_file_run lim lines = (c, st) ->
             length (steps st) = length (val_losses st)).
  { intros c st H. eapply for_lines_aligned; [|exact H]. reflexivity. }
  split; [|exact Hrun].
  intros s l H. apply parse_log_file_aligned in H. split; [assumption|].
  destruct s, l; simpl in H; split; intro; (discriminate || reflexivity).
Qed.

Lemma C3_series_aligned_witness :
  (length [100] = length [py_float_lit "2.3456"]
   /\ ([100] = [] <-> [py_float_lit "2.3456"] = []))
  /\ length (steps {| steps := [100]; val_losses := [py_float_lit "2.3456"] |})
     = length (val_losses {| steps := [100];
                             val_losses := [py_float_lit "2.3456"] |}).
Proof.
  split.
  - apply (proj1 (C3_series_aligned
                    4300 [lit "step:100/1000 val_loss:2.3456 lr:0.001";
                          lit "epoch complete, no metrics"])).
    reflexivity.
  - apply (proj2 (C3_series_aligned
                    4300 [lit "step:100/1000 val_loss:2.3456 lr:0.001";
                          lit "step:200/1000 val_loss:1.2.3"])
                 (Raised (ValueError BadFloat))).
    reflexivity.
Defined.

(** C4: the records [parse_log_file] returns are those of the matching
    lines, one for one and in the order of the lines (nothing is sorted,
    nothing dropped as a duplicate); the records of an earlier part of
    the source come before those of a later part; and a line that does
    not match can be taken out of the source without changing the
    outcome: it adds no record and raises nothing. *)
Theorem C4_order_and_selectivity (lim : nat) :
  (forall lines steps losses,
      parse_log_file lim lines = inr (steps, losses) ->
      exists recs,
        Forall2 (record_of lim) (filter matching lines) recs
        /\ steps = map fst recs /\ losses = map snd recs)
  /\ (forall l1 l2 steps losses,
        parse_log_file lim (l1 ++ l2) = inr (steps, losses) ->
        exists s1 v1 s2 v2,
          parse_log_file lim l1 = inr (s1, v1)
          /\ parse_log_file lim l2 = inr (s2, v2)
          /\ steps = s1 ++ s2 /\ losses = v1 ++ v2)
  /\ (forall l1 line l2,
        search pattern line = None ->
        parse_log_file lim (l1 ++ line :: l2) = parse_log_file lim (l1 ++ l2)).
Proof.
  split; [|split].
  - intros lines s l H. apply parse_log_file_inr in H.
    destruct (for_lines_records _ _ _ H) as (recs & HF & Hs & Hl).
    now exists recs.
  - intros l1 l2 s l H. apply parse_log_file_inr in H.
    rewrite for_lines_app in H.
    destruct (for_lines lim l1 init) as [[|e] [s1 v1]] eqn:F1; [|discriminate].
    rewrite for_lines_extend in H.
    destruct (for_lines lim l2 init) as [c [s2 v2]] eqn:F2.
    inversion H; subst. exists s1, v1, s2, v2.
    repeat split; now apply parse_log_file_inr.
  - intros l1 line l2 Hn. unfold parse_log_file, parse_log_file_run.
    rewrite !for_lines_app.
    destruct (for_lines lim l1 init) as [[|e] st]; [|reflexivity].
    cbn [for_lines]. now rewrite (body_no_match _ _ _ Hn).
Qed.

Lemma C4_order_and_selectivity_witness :
  (exists recs,
      Forall2 (record_of 4300)
              (filter matching [lit "step:20/30 val_loss:2.1"; lit "junk";
                                lit "step:10/30 val_loss:2.5";
                                lit "step:20/30 val_loss:2.1"]) recs
      /\ [20; 10; 20] = map fst recs
      /\ [py_float_lit "2.1"; py_float_lit "2.5"; py_float_lit "2.1"]
         = map snd recs)
  /\ (exists s1 v1 s2 v2,
        parse_log_file 4300 [lit "step:20/30 val_loss:2.1"] = inr (s1, v1)
        /\ parse_log_file 4300 [lit "junk"; lit "step:10/30 val_loss:2.5"]
           = inr (s2, v2)
        /\ [20; 10] = s1 ++ s2
        /\ [py_float_lit "2.1"; py_float_lit "2.5"] = v1 ++ v2)
  /\ parse_log_file 4300 ([lit "step:20/30 val_loss:2.1"]
                          ++ lit "junk" :: [lit "step:10/30 val_loss:2.5"])
     = parse_log_file 4300 ([lit "step:20/30 val_loss:2.1"]
                            ++ [lit "step:10/30 val_loss:2.5"]).
Proof.
  split; [|split].
  - apply (proj1 (C4_order_and_selectivity 4300)). reflexivity.
  - apply (proj1 (proj2 (C4_order_and_selectivity 4300))
                 [lit "step:20/30 val_loss:2.1"]
                 [lit "junk"; lit "step:10/30 val_loss:2.5"]).
    reflexivity.
  - apply (proj2 (proj2 (C4_order_and_selectivity 4300))). reflexivity.
Defined.

(** C5: a source with no matching line, the empty source among them,
    makes [parse_log_file] return two empty lists; [plot_loss] on an
    empty list of steps prints its no-data message and returns: no
    figure, no drawing, no file. *)
Theorem C5_empty_contract (lim : nat) :
  (forall lines,
      Forall (fun line => search pattern line = None) lines ->
      parse_log_file lim lines = inr ([], []))
  /\ parse_log_file lim [] = inr ([], [])
  /\ (forall env losses output_file title,
        plot_loss env [] losses output_file title
        = ([Print "No loss data found in log file!"], Normal)).
Proof.
  split; [|split].
  - apply parse_log_file_no_match.
  - reflexivity.
  - reflexivity.
Qed.

Lemma C5_empty_contract_witness :
  parse_log_file 4300 [lit "epoch complete, no metrics";
                       lit "step:abc/1000 val_loss:1.0"]
  = inr ([], []).
Proof.
  apply (proj1 (C5_empty_contract 4300)).
  repeat constructor.
Defined.

Lemma summary_returns (steps : list Z) (losses : list float) :
  steps <> [] -> losses <> [] -> exists stats, summary steps losses = inr stats.
Proof.
  intros Hs Hl. destruct steps as [|n steps]; [congruence|].
  destruct losses as [|x losses]; [congruence|].
  unfold summary. cbn [py_min py_max]. now eexists.
Qed.

(** C6, as stated: whenever at least one record is extracted, [main]
    ends with status 0.  A log whose one record has a step of 401
    digits is extracted, and [plt.plot] then raises OverflowError on
    that step, even where the environment makes no call fail: the
    status is 1. *)
Lemma C6_counterexample :
  ~ (forall lim path_str plt fs a lines steps losses,
        fs (log_file a) = Some (TextFile lines) ->
        parse_log_file lim lines = inr (steps, losses) ->
        steps <> [] ->
        exit_status (snd (main lim path_str plt fs a)) = 0).
Proof.
  intro H.
  specialize (H 4300%nat (fun p => p) plt_ok
                (one_log [lit "step:1" ++ repeat "0"%char 400
                              ++ lit "/1 val_loss:1.0"])
                (no_options "log.txt")
                [lit "step:1" ++ repeat "0"%char 400 ++ lit "/1 val_loss:1.0"]
                [10 ^ 400] [py_float_lit "1.0"]).
  assert (E : exit_status
                (snd (main 4300 (fun p => p) plt_ok
                           (one_log [lit "step:1" ++ repeat "0"%char 400
                                         ++ lit "/1 val_loss:1.0"])
                           (no_options "log.txt"))) = 1)
    by (vm_compute; reflexivity).
  rewrite E in H.
  assert (1 = 0); [|discriminate].
  apply H; [reflexivity|vm_compute; reflexivity|discriminate].
Qed.

(** C6, amended: when nothing is at the log path, [main] prints a
    diagnostic that names the path and exits with status 1; when the
    file is there and no line matches, it prints its two lines of
    diagnostic and exits with status 1, and [plot_loss] is not called;
    when [parse_log_file] returns at least one record, [main] prints
    the summary and calls [plot_loss]: if no plotting call raises, the
    chart is produced, the plot of the series among the calls, and the
    status is 0; if one raises, the exception is uncaught and the
    status is 1.  No call raises when every step fits a float and the
    environment lets every call return. *)
Theorem C6_exit_status (lim : nat) (path_str : string -> string)
        (plt : plt_env) (fs : string -> option fs_entry) (a : args) :
  (fs (log_file a) = None ->
   main lim path_str plt fs a
   = ([Print ("Error: Log file not found: " ++ log_file a)], SysExit 1))
  /\ (forall lines,
        fs (log_file a) = Some (TextFile lines) ->
        Forall (fun line => search pattern line = None) lines ->
        main lim path_str plt fs a
        = ([Print ("Parsing log file: " ++ path_str (log_file a));
            Print "No validation loss data found in the log file.";
            Print "Make sure the training has run validation steps."],
           SysExit 1))
  /\ (forall lines steps losses,
        fs (log_file a) = Some (TextFile lines) ->
        parse_log_file lim lines = inr (steps, losses) ->
        steps <> [] ->
        exists stats,
          summary steps losses = inr stats
          /\ fst (main lim path_str plt fs a)
             = Print ("Parsing log file: " ++ path_str (log_file a))
                 :: stats
                 ++ fst (plot_loss plt steps losses (output a) (title a))
          /\ (snd (plot_loss plt steps losses (output a) (title a)) = Normal ->
              fst (plot_loss plt steps losses (output a) (title a))
              = plot_calls steps losses (output a) (title a)
              /\ In (PltPlot steps losses)
                    (fst (plot_loss plt steps losses (output a) (title a)))
              /\ snd (main lim path_str plt fs a) = Finished
              /\ exit_status (snd (main lim path_str plt fs a)) = 0)
          /\ (forall e,
                snd (plot_loss plt steps losses (output a) (title a))
                = Raised e ->
                snd (main lim path_str plt fs a) = Uncaught e
                /\ exit_status (snd (main lim path_str plt fs a)) = 1)
          /\ (forallb fits_float steps = true ->
              (forall ev, plt ev = None) ->
              snd (plot_loss plt steps losses (output a) (title a))
              = Normal)).
Proof.
  split; [|split].
  - intro Hfs. unfold main. now rewrite Hfs.
  - intros lines Hfs Hno. unfold main. rewrite Hfs.
    now rewrite (parse_log_file_no_match lim lines Hno).
  - intros lines s l Hfs Hp Hne.
    pose proof (parse_log_file_aligned lim lines s l Hp) as Hlen.
    assert (Hl : l <> []).
    { intro El. subst l. destruct s; [congruence|discriminate]. }
    destruct (summary_returns s l Hne Hl) as (stats & Hsum).
    exists stats. split; [assumption|].
    assert (Hmain : main lim path_str plt fs a
                    = (Print ("Parsing log file: " ++ path_str (log_file a))
                         :: stats
                         ++ fst (plot_loss plt s l (output a) (title a)),
                       match snd (plot_loss plt s l (output a) (title a)) with
                       | Normal => Finished
                       | Raised e => Uncaught e
                       end)).
    { unfold main. rewrite Hfs, Hp. destruct s as [|n s]; [congruence|].
      cbn [is_nil]. now rewrite Hsum. }
    rewrite Hmain. cbn [fst snd]. split; [reflexivity|]. split; [|split].
    + intro Hn. rewrite Hn. unfold plot_loss in *.
      rewrite (run_calls_normal _ _ Hn).
      split; [reflexivity|]. split; [|now split].
      unfold plot_calls. destruct s as [|n s]; [congruence|].
      cbn [is_nil]. apply in_or_app. left. simpl. auto.
    + intros e He. rewrite He. now split.
    + intros Hfit Henv. unfold plot_loss.
      now rewrite (run_calls_returns plt _
                     (call_outcome_returns plt s l (output a) (title a)
                                           Hlen Hfit Henv)).
Qed.

Lemma C6_exit_status_witness :
  main 4300 (fun p => p) plt_ok (one_log []) (no_options "lost.txt")
  = ([Print "Error: Log file not found: lost.txt"], SysExit 1)
  /\ main 4300 (fun p => p) plt_ok
          (one_log [lit "epoch complete, no metrics"])
          (no_options "log.txt")
     = ([Print "Parsing log file: log.txt";
         Print "No validation loss data found in the log file.";
         Print "Make sure the training has run validation steps."],
        SysExit 1)
  /\ snd (main 4300 (fun p => p) plt_ok
               (one_log [lit "step:100/1000 val_loss:2.3456 lr:0.001"])
               (no_options "log.txt")) = Finished
  /\ exit_status
       (snd (main 4300 (fun p => p) plt_ok
                  (one_log [lit "step:100/1000 val_loss:2.3456 lr:0.001"])
                  (no_options "log.txt"))) = 0.
Proof.
  split; [|split].
  - apply (proj1 (C6_exit_status 4300 (fun p => p) plt_ok (one_log [])
                                 (no_options "lost.txt"))).
    reflexivity.
  - apply (proj1 (proj2 (C6_exit_status
                           4300 (fun p => p) plt_ok
                           (one_log [lit "epoch complete, no metrics"])
                           (no_options "log.txt")))
                 [lit "epoch complete, no metrics"]).
    + reflexivity.
    + repeat constructor.
  - destruct (proj2 (proj2 (C6_exit_status
                              4300 (fun p => p) plt_ok
                              (one_log
                                 [lit "step:100/1000 val_loss:2.3456 lr:0.001"])
                              (no_options "log.txt")))
                    [lit "step:100/1000 val_loss:2.3456 lr:0.001"]
                    [100] [py_float_lit "2.3456"])
      as (stats & _ & _ & Hok & _ & Hnormal);
      [reflexivity|reflexivity|discriminate|].
    destruct Hok as (_ & _ & Hfin & Hst);
      [apply Hnormal; reflexivity|].
    now split.
Defined.

(** C7, as stated: every loss [parse_log_file] returns is finite.  A
    val_loss token of a one and 309 zeros is read by [float] as
    +infinity. *)
Lemma C7_counterexample :
  ~ (forall lines steps losses,
        parse_log_file 4300 lines = inr (steps, losses) ->
        Forall (fun n => 0 <= n) steps
        /\ Forall (fun x => finite_nonneg x = true) losses).
Proof.
  intro H.
  destruct (H [lit "step:1/1 val_loss:1" ++ repeat "0"%char 309]
              [1] [S754_infinity false]) as [_ Hl].
  - vm_compute. reflexivity.
  - inversion Hl; subst. discriminate.
Qed.

(** C7, amended: every record [parse_log_file] returns is a pair of a
    non-negative integer step and a loss that is never negative and
    never NaN; the loss is finite exactly when the val_loss token of
    its line denotes a number below 2^1024 - 2^970, where rounding to
    a float overflows, and +infinity from there on. *)
Theorem C7_records_nonneg (lim : nat) (lines : list str)
        (steps : list Z) (losses : list float) :
  parse_log_file lim lines = inr (steps, losses) ->
  Forall (fun n => 0 <= n) steps
  /\ Forall (fun x => nonneg_not_nan x = true) losses
  /\ Forall2 (fun line x =>
                (finite_nonneg x = true
                 <-> in_float_range (loss_token line) = true)
                /\ (x = S754_infinity false
                    <-> in_float_range (loss_token line) = false))
             (filter matching lines) losses.
Proof.
  intro H. apply parse_log_file_inr in H.
  destruct (for_lines_records _ _ _ H) as (recs & HF & Hs & Hl).
  cbn in Hs, Hl. subst steps losses.
  remember (filter matching lines) as ms eqn:E. clear E H.
  induction HF as [|line [n x] ms recs (m & Hm & Hc) _ IH]; simpl.
  - repeat split; constructor.
  - apply convert_returns in Hc. destruct Hc as (_ & Hf & Hn & Hx).
    destruct IH as (IH1 & IH2 & IH3).
    repeat split; constructor; try assumption.
    unfold loss_token. rewrite Hm.
    pose proof (py_float_finite_iff _ _ Hf) as Hfin.
    split; [exact Hfin|].
    destruct (in_float_range (group_text m 3));
      destruct x as [[]|[]| |[] mx ex]; cbn in Hx, Hfin |- *;
      try discriminate; split; intro G; try discriminate; try reflexivity;
      try (destruct Hfin as [Hfin _]; specialize (Hfin eq_refl);
           discriminate);
      try (destruct Hfin as [_ Hfin]; specialize (Hfin eq_refl);
           discriminate).
Qed.

Lemma C7_records_nonneg_witness :
  Forall (fun n => 0 <= n) [1; 2]
  /\ Forall (fun x => nonneg_not_nan x = true)
            [S754_infinity false; py_float_lit "0.5"]
  /\ Forall2 (fun line x =>
                (finite_nonneg x = true
                 <-> in_float_range (loss_token line) = true)
                /\ (x = S754_infinity false
                    <-> in_float_range (loss_token line) = false))
             (filter matching
                     [lit "step:1/1 val_loss:1" ++ repeat "0"%char 309;
                      lit "step:2/2 val_loss:0.5"])
             [S754_infinity false; py_float_lit "0.5"].
Proof.
  apply (C7_records_nonneg
           4300 [lit "step:1/1 val_loss:1" ++ repeat "0"%char 309;
                 lit "step:2/2 val_loss:0.5"]).
  vm_compute. reflexivity.
Defined.

(** C8: for the steps 10, 20, 30 and the losses 2.5, 2.1, 1.9, the
    summary lines of [main] report 3 measurements, steps 10 to 30 and a
    loss range of 1.9000 to 2.5000; these are the least and the greatest
    of each list; and a log with these three records makes [main] print
    those lines before it calls [plot_loss], whatever the plotting
    calls then do, and end with status 0 when they all return. *)
Theorem C8_summary_statistics :
  let steps := [10; 20; 30] in
  let losses := [py_float_lit "2.5"; py_float_lit "2.1"; py_float_lit "1.9"] in
  summary steps losses
  = inr [Print "Found 3 validation loss measurements";
         Print "Steps: 10 to 30";
         Print "Loss range: 1.9000 to 2.5000"]
  /\ length steps = 3%nat
  /\ py_min Z.ltb steps = Some 10 /\ py_max Z.ltb steps = Some 30
  /\ py_min float_lt losses = Some (py_float_lit "1.9")
  /\ py_max float_lt losses = Some (py_float_lit "2.5")
  /\ (forall lim path_str plt,
        main lim path_str plt
             (one_log [lit "step:10/30 val_loss:2.5";
                       lit "step:20/30 val_loss:2.1";
                       lit "step:30/30 val_loss:1.9"])
             (no_options "log.txt")
        = ([Print ("Parsing log file: " ++ path_str "log.txt");
            Print "Found 3 validation loss measurements";
            Print "Steps: 10 to 30";
            Print "Loss range: 1.9000 to 2.5000"]
             ++ fst (plot_loss plt steps losses None None),
           match snd (plot_loss plt steps losses None None) with
           | Normal => Finished
           | Raised e => Uncaught e
           end))
  /\ (forall lim path_str,
        main lim path_str plt_ok
             (one_log [lit "step:10/30 val_loss:2.5";
                       lit "step:20/30 val_loss:2.1";
                       lit "step:30/30 val_loss:1.9"])
             (no_options "log.txt")
        = ([Print ("Parsing log file: " ++ path_str "log.txt");
            Print "Found 3 validation loss measurements";
            Print "Steps: 10 to 30";
            Print "Loss range: 1.9000 to 2.5000"]
             ++ plot_calls steps losses None None,
           Finished)).
Proof.
  cbv zeta. repeat apply conj; try (vm_compute; reflexivity).
Qed.

(** C9: the loop body appends at most one step and one loss for a
    line; the match [search] returns starts at the leftmost position of
    the line at which the pattern matches; so when a well-formed
    occurrence sits at that position, the record of the line is the one
    of that occurrence, whatever follows it on the line, further
    occurrences included. *)
Theorem C9_one_record_leftmost (lim : nat) (line : str) :
  (forall st c st',
      body lim line st = (c, st') ->
      (length (steps st') <= length (steps st) + 1)%nat
      /\ (length (val_losses st') <= length (val_losses st) + 1)%nat)
  /\ (forall m,
        search pattern line = Some m ->
        exists pre tail,
          line = pre ++ tail /\ match_here pattern tail = Some m
          /\ forall n, (n < length pre)%nat ->
                       match_here pattern (skipn n line) = None)
  /\ (forall pre g1 g2 ws g3 rest,
        line = pre ++ occurrence_text g1 g2 ws g3 ++ rest ->
        occurrence g1 g2 ws g3 ->
        stops is_digit_or_dot rest = true ->
        (forall n, (n < length pre)%nat ->
                   match_here pattern (skipn n line) = None) ->
        search pattern line = Some (groups g1 g2 g3)
        /\ forall st,
            body lim line st
            = match convert lim (groups g1 g2 g3) with
              | inl e => (Raised e, st)
              | inr (step, val_loss) =>
                  (Normal, extend st {| steps := [step];
                                        val_losses := [val_loss] |})
              end).
Proof.
  split; [|split].
  - intros st c st' B.
    destruct (body_appends _ _ _ _ _ B) as [->|(rec & _ & _ & ->)].
    + lia.
    + simpl. rewrite !length_app. simpl. lia.
  - intros m Hs. now apply search_leftmost.
  - intros pre g1 g2 ws g3 rest -> Ho Hrest Hleft.
    assert (Hs : search pattern (pre ++ occurrence_text g1 g2 ws g3 ++ rest)
                 = Some (groups g1 g2 g3)).
    { apply search_first; [|assumption]. now apply match_here_complete. }
    split; [assumption|].
    intro st. unfold body. rewrite Hs.
    destruct (convert lim (groups g1 g2 g3)) as [e|[step val_loss]];
      reflexivity.
Qed.

Lemma C9_one_record_leftmost_witness :
  ((length [1] <= length (steps init) + 1)%nat
   /\ (length [py_float_lit "2.5"] <= length (val_losses init) + 1)%nat)
  /\ (exists pre tail,
        lit "x step:1/9 val_loss:2.5 step:2/9 val_loss:3.5" = pre ++ tail
        /\ match_here pattern tail
           = Some (groups (lit "1") (lit "9") (lit "2.5"))
        /\ forall n, (n < length pre)%nat ->
             match_here pattern
               (skipn n (lit "x step:1/9 val_loss:2.5 step:2/9 val_loss:3.5"))
             = None)
  /\ search pattern (lit "x step:1/9 val_loss:2.5 step:2/9 val_loss:3.5")
     = Some (groups (lit "1") (lit "9") (lit "2.5"))
  /\ forall st,
      body 4300 (lit "x step:1/9 val_loss:2.5 step:2/9 val_loss:3.5") st
      = match convert 4300 (groups (lit "1") (lit "9") (lit "2.5")) with
        | inl e => (Raised e, st)
        | inr (step, val_loss) =>
            (Normal, extend st {| steps := [step];
                                  val_losses := [val_loss] |})
        end.
Proof.
  split; [|split].
  - apply (proj1 (C9_one_record_leftmost
                    4300
                    (lit "x step:1/9 val_loss:2.5 step:2/9 val_loss:3.5"))
                 init Normal
                 {| steps := [1]; val_losses := [py_float_lit "2.5"] |}).
    reflexivity.
  - apply (proj1 (proj2 (C9_one_record_leftmost
                           4300
                           (lit "x step:1/9 val_loss:2.5 step:2/9 val_loss:3.5")))).
    reflexivity.
  - apply (proj2 (proj2 (C9_one_record_leftmost
                           4300
                           (lit "x step:1/9 val_loss:2.5 step:2/9 val_loss:3.5")))
                 (lit "x ") (lit "1") (lit "9") (lit " ") (lit "2.5")
                 (lit " step:2/9 val_loss:3.5")).
    + reflexivity.
    + repeat split; (discriminate || reflexivity).
    + reflexivity.
    + intros [|[|n]] Hn; [reflexivity|reflexivity|simpl in Hn; lia].
Defined.

(** C10: [plot_loss] with the empty string as title does what it does
    with no title, call for call and outcome for outcome; the title it
    asks for on a non-empty series is the default one, no other title
    is ever set, and the default one is set whenever no call raises. *)
Theorem C10_empty_title_default (steps : list Z) (losses : list float)
        (output_file : option string) :
  (forall env,
      plot_loss env steps losses output_file (Some "")
      = plot_loss env steps losses output_file None)
  /\ plot_calls steps losses output_file (Some "")
     = plot_calls steps losses output_file None
  /\ (steps <> [] ->
      In (PltTitle "Validation Loss Over Training")
         (plot_calls steps losses output_file (Some "")))
  /\ (forall env t,
        In (PltTitle t)
           (fst (plot_loss env steps losses output_file (Some ""))) ->
        t = "Validation Loss Over Training")
  /\ (forall env,
        steps <> [] ->
        snd (plot_loss env steps losses output_file (Some "")) = Normal ->
        In (PltTitle "Validation Loss Over Training")
           (fst (plot_loss env steps losses output_file (Some "")))).
Proof.
  assert (Hin : steps <> [] ->
                In (PltTitle "Validation Loss Over Training")
                   (plot_calls steps losses output_file (Some ""))).
  { intro Hne. destruct steps as [|n steps]; [congruence|].
    unfold plot_calls. cbn [is_nil]. apply in_or_app. left.
    simpl. auto 10. }
  split; [reflexivity|]. split; [reflexivity|]. split; [exact Hin|]. split.
  - intros env t H. unfold plot_loss in H. apply run_calls_In in H.
    unfold plot_calls in H. destruct (is_nil steps).
    + destruct H as [H|[]]; discriminate.
    + apply in_app_or in H. destruct H as [H|H].
      * simpl in H.
        repeat match goal with
               | H : _ \/ _ |- _ => destruct H
               end; try discriminate; try contradiction.
        match goal with H : PltTitle _ = PltTitle _ |- _ =>
                          now inversion H end.
      * destruct (truthy output_file); simpl in H;
          repeat match goal with
                 | H : _ \/ _ |- _ => destruct H
                 end; try discriminate; contradiction.
  - intros env Hne Hn. unfold plot_loss in *.
    rewrite (run_calls_normal _ _ Hn). now apply Hin.
Qed.

Lemma C10_empty_title_default_witness :
  In (PltTitle "Validation Loss Over Training")
     (plot_calls [10; 20] [py_float_lit "2.5"; py_float_lit "2.1"]
                 (Some "plot.png") (Some ""))
  /\ In (PltTitle "Validation Loss Over Training")
        (fst (plot_loss plt_ok [10; 20]
                        [py_float_lit "2.5"; py_float_lit "2.1"]
                        (Some "plot.png") (Some ""))).
Proof.
  split.
  - apply (proj1 (proj2 (proj2 (C10_empty_title_default
                                  [10; 20]
                                  [py_float_lit "2.5"; py_float_lit "2.1"]
                                  (Some "plot.png"))))).
    discriminate.
  - apply (proj2 (proj2 (proj2 (proj2 (C10_empty_title_default
                                         [10; 20]
                                         [py_float_lit "2.5";
                                          py_float_lit "2.1"]
                                         (Some "plot.png")))))).
    + discriminate.
    + reflexivity.
Defined.

(** * Further properties of the code *)

(** ** The matcher, exactly *)

Lemma plus_bt_stuck {R} cls (s : str) (k : str -> option R) :
  (forall s', k s' <> None) -> plus_bt cls s k = None -> stops cls s = true.
Proof.
  intros Hk. destruct s as [|c s]; simpl; [reflexivity|].
  destruct (cls c); [|reflexivity].
  destruct (plus_bt cls s k); [discriminate|].
  intro H. now apply Hk in H.
Qed.

(** With a continuation that never fails, [cls+] takes the longest run. *)
Lemma plus_bt_longest {R} cls (s : str) (k : str -> option R) (res : R) :
  (forall s', k s' <> None) ->
  plus_bt cls s k = Some res ->
  exists a s', s = a ++ s' /\ a <> [] /\ forallb cls a = true
               /\ stops cls s' = true /\ k s' = Some res.
Proof.
  intro Hk. revert res; induction s as [|c s IH]; intros res H; simpl in H.
  - discriminate.
  - destruct (cls c) eqn:Hc; [|discriminate].
    destruct (plus_bt cls s k) as [r|] eqn:E.
    + inversion H; subst r.
      destruct (IH res eq_refl) as (a & s' & -> & _ & Ha & Hs & Hr).
      exists (c :: a), s'. repeat split; simpl; try easy.
      now rewrite Hc, Ha.
    + exists [c], s. repeat split; simpl; try easy.
      * now rewrite Hc.
      * now apply (plus_bt_stuck cls s k).
Qed.

(** A match at the start of [s] takes a third group that cannot be
    extended. *)
Lemma match_here_maximal (s : str) (m : captures) :
  match_here pattern s = Some m ->
  exists g1 g2 ws g3 rest,
    s = occurrence_text g1 g2 ws g3 ++ rest /\ m = groups g1 g2 g3
    /\ occurrence g1 g2 ws g3 /\ stops is_digit_or_dot rest = true.
Proof.
  unfold match_here, pattern. cbn [bt]. intro H.
  destruct (strip_prefix (lit "step:") s) as [s1|] eqn:E1; [|discriminate].
  apply strip_prefix_Some in E1. subst s.
  apply plus_bt_sound in H. destruct H as (g1 & s2 & -> & N1 & D1 & H).
  rewrite consumed_app in H.
  destruct (strip_prefix (lit "/") s2) as [s3|] eqn:E3; [|discriminate].
  apply strip_prefix_Some in E3. subst s2.
  apply plus_bt_sound in H. destruct H as (g2 & s4 & -> & N2 & D2 & H).
  rewrite consumed_app in H.
  apply plus_bt_sound in H. destruct H as (ws & s5 & -> & Nw & Dw & H).
  destruct (strip_prefix (lit "val_loss:") s5) as [s6|] eqn:E6; [|discriminate].
  apply strip_prefix_Some in E6. subst s5.
  apply plus_bt_longest in H; [|discriminate].
  destruct H as (g3 & rest & -> & N3 & D3 & Hrest & H).
  rewrite consumed_app in H. inversion H; subst m.
  exists g1, g2, ws, g3, rest. repeat split; try assumption.
  unfold occurrence_text. now rewrite <- !app_assoc.
Qed.

(** An occurrence, with its third group run on into what follows. *)
Lemma occurrence_extend (g1 g2 ws g3 rest : str) :
  occurrence g1 g2 ws g3 ->
  exists ext rest',
    rest = ext ++ rest'
    /\ forallb is_digit_or_dot ext = true
    /\ occurrence g1 g2 ws (g3 ++ ext)
    /\ stops is_digit_or_dot rest' = true
    /\ occurrence_text g1 g2 ws g3 ++ rest
       = occurrence_text g1 g2 ws (g3 ++ ext) ++ rest'.
Proof.
  intros [O1 O2 Ow [N3 D3]].
  destruct (span is_digit_or_dot rest) as [ext rest'] eqn:E.
  apply span_spec in E. destruct E as (-> & Hext & Hrest).
  exists ext, rest'. repeat split; try assumption; try tauto.
  - destruct g3; [congruence|discriminate].
  - now rewrite forallb_app, D3, Hext.
  - unfold occurrence_text. now rewrite <- !app_assoc.
Qed.

Lemma search_suffix (r : regex) (pre tail : str) (m : captures) :
  match_here r tail = Some m -> exists m', search r (pre ++ tail) = Some m'.
Proof.
  intro Hm. induction pre as [|c pre IH].
  - exists m. simpl. destruct tail; simpl; now rewrite Hm.
  - cbn [app search]. destruct (match_here r (c :: pre ++ tail)) as [m1|].
    + now exists m1.
    + exact IH.
Qed.

(** X1: [pattern.match] succeeds exactly on a text that starts with
    [step:], a run of digits, [/], a run of digits, a run of white
    space, [val_loss:] and a run of digits and dots that what follows
    cannot prolong; the groups are the three runs. *)
Theorem match_here_exact (s : str) (m : captures) :
  match_here pattern s = Some m
  <-> exists g1 g2 ws g3 rest,
        s = occurrence_text g1 g2 ws g3 ++ rest /\ m = groups g1 g2 g3
        /\ occurrence g1 g2 ws g3 /\ stops is_digit_or_dot rest = true.
Proof.
  split.
  - apply match_here_maximal.
  - intros (g1 & g2 & ws & g3 & rest & -> & -> & Ho & Hrest).
    now apply match_here_complete.
Qed.

Lemma match_here_exact_witness :
  match_here pattern (lit "step:7/9 	 val_loss:0.25, lr:3")
  = Some (groups (lit "7") (lit "9") (lit "0.25")).
Proof.
  apply (proj2 (match_here_exact (lit "step:7/9 	 val_loss:0.25, lr:3")
                                 (groups (lit "7") (lit "9") (lit "0.25")))).
  exists (lit "7"), (lit "9"), (lit " 	 "), (lit "0.25"), (lit ", lr:3").
  repeat split; (discriminate || reflexivity).
Defined.

(** X2: a line matches exactly when an occurrence of the shape sits
    somewhere in it; the text before and after it is free. *)
Theorem search_iff_occurrence (line : str) :
  (exists m, search pattern line = Some m)
  <-> exists pre g1 g2 ws g3 rest,
        line = pre ++ occurrence_text g1 g2 ws g3 ++ rest
        /\ occurrence g1 g2 ws g3.
Proof.
  split.
  - intros (m & H). destruct (search_sound _ _ H)
      as (pre & g1 & g2 & ws & g3 & rest & -> & _ & Ho).
    now exists pre, g1, g2, ws, g3, rest.
  - intros (pre & g1 & g2 & ws & g3 & rest & -> & Ho).
    destruct (occurrence_extend g1 g2 ws g3 rest Ho)
      as (ext & rest' & _ & _ & Ho' & Hrest & ->).
    apply search_suffix with (m := groups g1 g2 (g3 ++ ext)).
    now apply match_here_complete.
Qed.

Lemma search_iff_occurrence_witness :
  exists m, search pattern (lit "[run 3] step:7/9 val_loss:0.25 ok") = Some m.
Proof.
  apply (proj2 (search_iff_occurrence
                  (lit "[run 3] step:7/9 val_loss:0.25 ok"))).
  exists (lit "[run 3] "), (lit "7"), (lit "9"), (lit " "), (lit "0.2"),
    (lit "5 ok").
  repeat split; (discriminate || reflexivity).
Defined.

(** ** When a line gives a record *)

Lemma digit_or_dot_cases (c : ascii) :
  is_digit_or_dot c = true -> is_digit c = false -> is_dot c = true.
Proof. unfold is_digit_or_dot. intros H D. now rewrite D in H. Qed.

Lemma no_dots_digits (s : str) :
  forallb is_digit_or_dot s = true -> dots s = 0%nat ->
  forallb is_digit s = true.
Proof.
  unfold dots. induction s as [|c s IH]; simpl; [reflexivity|].
  intros H Hd. apply andb_prop in H. destruct H as [Hc Hs].
  destruct (is_digit c) eqn:Dc.
  - rewrite (digit_not_dot c Dc) in Hd. now apply IH.
  - rewrite (digit_or_dot_cases c Hc Dc) in Hd. discriminate.
Qed.

Lemma digits_existsb (s : str) :
  s <> [] -> forallb is_digit s = true -> existsb is_digit s = true.
Proof.
  destruct s as [|c s]; [congruence|]. simpl. intros _ H.
  apply andb_prop in H. destruct H as [-> _]. reflexivity.
Qed.

Lemma existsb_nonempty (s : str) : existsb is_digit s = true -> s <> [].
Proof. destruct s; [discriminate|congruence]. Qed.

(** The tokens of digits and dots [float] takes: those with a digit and
    at most one dot. *)
Lemma py_float_accepts (s : str) :
  forallb is_digit_or_dot s = true ->
  (exists x, py_float s = inr x)
  <-> ((dots s <= 1)%nat /\ existsb is_digit s = true).
Proof.
  intro Hs. split.
  - intros (x & H). split; [now apply py_float_returns in H|].
    revert H. unfold py_float, raise, ret.
    destruct (span is_digit s) as [ip rest] eqn:E.
    apply span_spec in E. destruct E as (-> & Hip & _).
    rewrite existsb_app. destruct rest as [|c fp].
    + destruct ip as [|d ip]; [discriminate|]. intros _.
      now rewrite (digits_existsb (d :: ip)).
    + destruct (is_dot c && forallb is_digit fp
                && negb (is_nil ip && is_nil fp)) eqn:C; [|discriminate].
      repeat rewrite andb_true_iff in C. destruct C as [[_ Hfp] Hne].
      intros _. destruct ip as [|d ip].
      * destruct fp as [|d fp]; [discriminate|].
        cbn [forallb] in Hfp. apply andb_prop in Hfp. destruct Hfp as [Hd _].
        cbn [existsb orb]. rewrite Hd. cbn [orb]. apply orb_true_r.
      * now rewrite (digits_existsb (d :: ip)).
  - intros [Hd He]. unfold py_float, raise, ret.
    destruct (span is_digit s) as [ip rest] eqn:E.
    apply span_spec in E. destruct E as (-> & Hip & Hstop).
    destruct rest as [|c fp].
    + rewrite app_nil_r in He. apply existsb_nonempty in He.
      destruct ip; [congruence|]. now eexists.
    + simpl in Hstop. apply negb_true_iff in Hstop.
      rewrite forallb_app in Hs. apply andb_prop in Hs.
      destruct Hs as [_ Hs]. cbn [forallb] in Hs. apply andb_prop in Hs.
      destruct Hs as [Hc Hfp].
      pose proof (digit_or_dot_cases c Hc Hstop) as Dc.
      rewrite dots_app, (digits_no_dots ip Hip) in Hd.
      change (c :: fp) with ([c] ++ fp) in Hd. rewrite dots_app in Hd.
      assert (D1 : dots [c] = 1%nat) by (unfold dots; simpl; now rewrite Dc).
      rewrite D1 in Hd.
      assert (Hfd : forallb is_digit fp = true)
        by (apply no_dots_digits; [assumption|lia]).
      rewrite Dc, Hfd. cbn [andb].
      rewrite existsb_app in He. cbn [existsb] in He. rewrite Hstop in He.
      cbn [orb] in He.
      destruct ip as [|d ip]; [|now eexists].
      destruct fp as [|d fp]; [discriminate|]. now eexists.
Qed.

(** X3: a matching line gives its record, the step of group 1 and the
    loss [float] makes of group 3, exactly when groups 1 and 2 are short
    enough for [int] and group 3 has a digit and at most one dot; in
    every other case the loop body raises a ValueError and appends
    nothing.  The total of group 2 is never kept, but it has to
    convert. *)
Theorem body_record_iff (lim : nat) (line g1 g2 g3 : str) (st : locals) :
  search pattern line = Some (groups g1 g2 g3) ->
  if within_limit lim g1 && within_limit lim g2
     && (dots g3 <=? 1)%nat && existsb is_digit g3
  then exists x,
      py_float g3 = inr x
      /\ body lim line st
         = (Normal, extend st {| steps := [int_of_digits g1];
                                 val_losses := [x] |})
  else exists why, body lim line st = (Raised (ValueError why), st).
Proof.
  intro Hs. destruct (search_sound _ _ Hs)
    as (pre & h1 & h2 & ws & h3 & rest & _ & Hg & [[N1 D1] [N2 D2] _ [N3 D3]]).
  inversion Hg; subst h1 h2 h3. clear Hg.
  unfold body. rewrite Hs. unfold convert, bind, ret.
  change (group_text (groups g1 g2 g3) 1) with g1.
  change (group_text (groups g1 g2 g3) 2) with g2.
  change (group_text (groups g1 g2 g3) 3) with g3.
  rewrite (py_int_within lim g1 N1 D1), (py_int_within lim g2 N2 D2).
  destruct (within_limit lim g1); [|now eexists].
  destruct (within_limit lim g2); [|now eexists].
  cbn [andb].
  pose proof (py_float_accepts g3 D3) as Hacc.
  destruct ((dots g3 <=? 1)%nat && existsb is_digit g3) eqn:C.
  - apply andb_prop in C. destruct C as [Cd Ce]. apply Nat.leb_le in Cd.
    destruct (proj2 Hacc (conj Cd Ce)) as (x & Hx).
    exists x. now rewrite Hx.
  - destruct (py_float g3) as [e|x] eqn:F.
    + apply py_float_raises in F. subst e. now eexists.
    + destruct (proj1 Hacc (ex_intro _ x eq_refl)) as [Cd Ce].
      apply Nat.leb_le in Cd. now rewrite Cd, Ce in C.
Qed.

Lemma body_record_iff_witness :
  (exists x,
      py_float (lit ".5") = inr x
      /\ body 4300 (lit "step:007/10 val_loss:.5") init
         = (Normal, extend init {| steps := [int_of_digits (lit "007")];
                                   val_losses := [x] |}))
  /\ (exists why,
        body 4300 (lit "step:1/" ++ repeat "9"%char 4301 ++ lit " val_loss:.5")
             init
        = (Raised (ValueError why), init)).
Proof.
  split.
  - apply (body_record_iff 4300 (lit "step:007/10 val_loss:.5")
                           (lit "007") (lit "10") (lit ".5") init).
    reflexivity.
  - apply (body_record_iff
             4300 (lit "step:1/" ++ repeat "9"%char 4301 ++ lit " val_loss:.5")
             (lit "1") (repeat "9"%char 4301) (lit ".5") init).
    vm_compute. reflexivity.
Defined.

(** X4: the loss token runs on through every digit and dot after it, so
    a loss that has a decimal point and is directly followed by a dot
    (the full stop of a sentence, say) is not read as that loss: the
    loop body raises a ValueError.  The occurrence is taken to be the
    leftmost match of the line. *)
Theorem loss_followed_by_dot_raises (lim : nat) (pre g1 g2 ws g3 rest : str)
        (st : locals) :
  occurrence g1 g2 ws g3 -> (1 <= dots g3)%nat ->
  (forall n, (n < length pre)%nat ->
     match_here pattern
       (skipn n (pre ++ (occurrence_text g1 g2 ws g3 ++ "."%char :: rest)))
     = None) ->
  exists why,
    body lim (pre ++ (occurrence_text g1 g2 ws g3 ++ "."%char :: rest)) st
    = (Raised (ValueError why), st).
Proof.
  intros Ho Hd Hleft.
  destruct (occurrence_extend g1 g2 ws g3 ("."%char :: rest) Ho)
    as (ext & rest' & Hrest & Hext & Ho' & Hstop & Heq).
  rewrite Heq in *.
  assert (Hs : search pattern (pre ++ occurrence_text g1 g2 ws (g3 ++ ext)
                                   ++ rest')
               = Some (groups g1 g2 (g3 ++ ext))).
  { apply search_first; [|assumption]. now apply match_here_complete. }
  assert (Hdots : (2 <= dots (g3 ++ ext))%nat).
  { destruct ext as [|c ext].
    - simpl in Hrest. subst rest'. discriminate.
    - inversion Hrest; subst c. rewrite dots_app.
      change ("."%char :: ext) with (["."%char] ++ ext). rewrite dots_app.
      change (dots ["."%char]) with 1%nat. lia. }
  unfold body. rewrite Hs.
  destruct (convert lim (groups g1 g2 (g3 ++ ext))) as [e|[n x]] eqn:C.
  - destruct (convert_raises _ _ _ C) as (why & ->). now exists why.
  - apply convert_returns in C. destruct C as (_ & C & _).
    apply py_float_returns in C. destruct C as [C _].
    change (group_text (groups g1 g2 (g3 ++ ext)) 3) with (g3 ++ ext) in C.
    lia.
Qed.

Lemma loss_followed_by_dot_witness :
  exists why,
    body 4300 (lit "Now " ++ (occurrence_text (lit "5") (lit "9") (lit " ")
                                              (lit "2.5")
                              ++ "."%char :: lit " Next"))
         init
    = (Raised (ValueError why), init).
Proof.
  apply (loss_followed_by_dot_raises
           4300 (lit "Now ") (lit "5") (lit "9") (lit " ") (lit "2.5")
           (lit " Next") init).
  - repeat split; (discriminate || reflexivity).
  - vm_compute. lia.
  - intros [|[|[|[|n]]]] Hn; try reflexivity. simpl in Hn. lia.
Defined.

(** ** Logs put end to end *)

Lemma parse_log_file_app (lim : nat) (l1 l2 : list str) :
  parse_log_file lim (l1 ++ l2)
  = (r1 <- parse_log_file lim l1 ;;
     r2 <- parse_log_file lim l2 ;;
     ret (fst r1 ++ fst r2, snd r1 ++ snd r2)).
Proof.
  unfold parse_log_file, parse_log_file_run. rewrite for_lines_app.
  destruct (for_lines lim l1 init) as [[|e1] st1]; [|reflexivity].
  rewrite for_lines_extend.
  destruct (for_lines lim l2 init) as [[|e2] st2]; reflexivity.
Qed.

(** X5: the extraction of two runs of lines put end to end is the
    extraction of the first followed by that of the second: an
    exception of the first is the outcome and the second is not read;
    otherwise an exception of the second is the outcome; otherwise the
    steps and the losses of the second follow those of the first. *)
Theorem parse_log_file_concat (lim : nat) (l1 l2 : list str) :
  (forall e,
      parse_log_file lim l1 = inl e ->
      parse_log_file lim (l1 ++ l2) = inl e)
  /\ (forall r1 e,
        parse_log_file lim l1 = inr r1 ->
        parse_log_file lim l2 = inl e ->
        parse_log_file lim (l1 ++ l2) = inl e)
  /\ (forall s1 v1 s2 v2,
        parse_log_file lim l1 = inr (s1, v1) ->
        parse_log_file lim l2 = inr (s2, v2) ->
        parse_log_file lim (l1 ++ l2) = inr (s1 ++ s2, v1 ++ v2)).
Proof.
  rewrite parse_log_file_app. repeat split.
  - now intros e ->.
  - now intros r1 e -> ->.
  - now intros s1 v1 s2 v2 -> ->.
Qed.

Lemma parse_log_file_concat_witness :
  parse_log_file 4300 ([lit "step:1/9 val_loss:.."; lit "step:2/9 val_loss:2"]
                       ++ [lit "step:3/9 val_loss:3"])
  = inl (ValueError BadFloat)
  /\ parse_log_file 4300 ([lit "step:1/9 val_loss:1"]
                          ++ [lit "junk"; lit "step:2/9 val_loss:."])
     = inl (ValueError BadFloat)
  /\ parse_log_file 4300 ([lit "step:2/9 val_loss:2"; lit "junk"]
                          ++ [lit "step:1/9 val_loss:1"])
     = inr ([2] ++ [1], [py_float_lit "2"] ++ [py_float_lit "1"]).
Proof.
  split; [|split].
  - apply (proj1 (parse_log_file_concat 4300 _ _)). reflexivity.
  - apply (proj1 (proj2 (parse_log_file_concat 4300 _ _))
                 ([1], [py_float_lit "1"])); reflexivity.
  - apply (proj2 (proj2 (parse_log_file_concat 4300 _ _))); reflexivity.
Defined.

(** ** The lines of the file *)

Lemma split_lines_nil (t : str) : split_lines t = [] -> t = [].
Proof.
  destruct t as [|c t]; [reflexivity|]. simpl.
  destruct (Ascii.eqb c LF); [discriminate|].
  destruct (split_lines t); discriminate.
Qed.

(** Nothing of the text is lost or added by the split. *)
Lemma split_lines_concat (t : str) : concat (split_lines t) = t.
Proof.
  induction t as [|c t IH]; [reflexivity|]. simpl.
  destruct (Ascii.eqb c LF).
  - simpl. now rewrite IH.
  - destruct (split_lines t) as [|l ls] eqn:E.
    + apply split_lines_nil in E. now subst t.
    + simpl in *. now rewrite IH.
Qed.

(** A line is not empty, and a line feed can only be its last
    character. *)
Lemma split_lines_shape (t line : str) :
  In line (split_lines t) ->
  line <> [] /\ forall a b, line = a ++ LF :: b -> b = [].
Proof.
  revert line; induction t as [|c t IH]; intros line; simpl; [tauto|].
  destruct (Ascii.eqb c LF) eqn:Ec.
  - intros [<-|Hin]; [|now apply IH]. split; [discriminate|].
    intros [|x a] b H; inversion H; [reflexivity|].
    now destruct a.
  - assert (Hc : c <> LF) by (intros ->; now rewrite Ascii.eqb_refl in Ec).
    destruct (split_lines t) as [|l ls] eqn:E.
    + intros [<-|[]]. split; [discriminate|].
      intros [|x a] b H; inversion H; [congruence|]. now destruct a.
    + intros [<-|Hin].
      * split; [discriminate|].
        intros [|x a] b H; inversion H; [congruence|].
        subst. exact (proj2 (IH (a ++ LF :: b) (or_introl eq_refl))
                            a b eq_refl).
      * apply IH. now right.
Qed.

Lemma translate_newlines_no_CR (t : str) :
  forall b, ~ In CR (translate_newlines b t).
Proof.
  induction t as [|c t IH]; intro b; simpl; [tauto|].
  destruct (Ascii.eqb c CR) eqn:Ec.
  - intros [H|H]; [discriminate|]. now apply IH in H.
  - assert (Hc : c <> CR) by (intros ->; now rewrite Ascii.eqb_refl in Ec).
    destruct (Ascii.eqb c LF).
    + destruct b; [apply IH|].
      intros [H|H]; [discriminate|]. now apply IH in H.
    + intros [H|H]; [congruence|]. now apply IH in H.
Qed.

Lemma file_lines_chars (raw line : str) (c : ascii) :
  In line (file_lines raw) -> In c line ->
  In c (translate_newlines false raw).
Proof.
  unfold file_lines. intros Hl Hc.
  rewrite <- (split_lines_concat (translate_newlines false raw)).
  apply in_concat. now exists line.
Qed.

(** X6: a line the file yields is not empty, holds no carriage return,
    and holds a line feed as its last character only; so in a line that
    holds an occurrence of the pattern, the white space between the
    total and [val_loss:] has no line break in it: a record is never
    put together from two lines of the file, although [\s] matches a
    line break. *)
Theorem file_line_no_break (raw line pre g1 g2 ws g3 rest : str) :
  In line (file_lines raw) ->
  (line <> [] /\ ~ In CR line /\ forall a b, line = a ++ LF :: b -> b = [])
  /\ (line = pre ++ occurrence_text g1 g2 ws g3 ++ rest ->
      ~ In LF ws /\ ~ In CR ws).
Proof.
  intro Hl.
  assert (Hcr : ~ In CR line).
  { intro H. apply (translate_newlines_no_CR raw false).
    eapply file_lines_chars; eassumption. }
  destruct (split_lines_shape _ _ Hl) as [Hne Hlf].
  split; [now repeat split|].
  intros ->. split.
  - intro H. apply in_split in H. destruct H as (w1 & w2 & ->).
    specialize (Hlf (pre ++ lit "step:" ++ g1 ++ lit "/" ++ g2 ++ w1)
                    (w2 ++ lit "val_loss:" ++ g3 ++ rest)).
    assert (E : w2 ++ lit "val_loss:" ++ g3 ++ rest = []).
    { apply Hlf. unfold occurrence_text.
      repeat (rewrite <- app_assoc; cbn [app]). reflexivity. }
    apply app_eq_nil in E. destruct E as [_ E]. discriminate.
  - intro H. apply Hcr. apply in_or_app. right. apply in_or_app. left.
    unfold occurrence_text.
    apply in_or_app. right. apply in_or_app. right.
    apply in_or_app. right. apply in_or_app. right.
    apply in_or_app. now left.
Qed.

Lemma file_line_no_break_witness :
  (lit "step:1/2 	val_loss:3" ++ [LF] <> []
   /\ ~ In CR (lit "step:1/2 	val_loss:3" ++ [LF])
   /\ forall a b, lit "step:1/2 	val_loss:3" ++ [LF] = a ++ LF :: b -> b = [])
  /\ (~ In LF (lit " 	") /\ ~ In CR (lit " 	")).
Proof.
  pose proof (file_line_no_break
                (lit "start" ++ [CR; LF] ++ lit "step:1/2 	val_loss:3"
                     ++ [CR] ++ lit "end")
                (lit "step:1/2 	val_loss:3" ++ [LF])
                [] (lit "1") (lit "2") (lit " 	") (lit "3") [LF]) as H.
  destruct H as [H1 H2].
  - right. left. reflexivity.
  - split; [exact H1|]. apply H2. reflexivity.
Defined.

Lemma translate_newlines_app_LF (t t2 : str) :
  forall b,
    translate_newlines b ((t ++ [LF]) ++ t2)
    = translate_newlines b (t ++ [LF]) ++ translate_newlines false t2.
Proof.
  induction t as [|c t IH]; intro b.
  - cbn. now destruct b.
  - cbn [app translate_newlines].
    destruct (Ascii.eqb c CR); [now rewrite IH|].
    destruct (Ascii.eqb c LF); [|now rewrite IH].
    destruct b; now rewrite IH.
Qed.

Lemma translate_newlines_ends_LF (t : str) :
  forall b, b = false \/ t <> [] ->
            exists u, translate_newlines b (t ++ [LF]) = u ++ [LF].
Proof.
  induction t as [|c t IH]; intros b Hb.
  - destruct Hb as [->|Hb]; [|congruence]. now exists [].
  - cbn [app translate_newlines].
    destruct (Ascii.eqb c CR).
    + destruct t as [|d t].
      * exists []. reflexivity.
      * destruct (IH true) as (u & ->); [right; discriminate|].
        now exists (LF :: u).
    + destruct (Ascii.eqb c LF).
      * destruct (IH false) as (u & Hu); [now left|]. rewrite Hu.
        destruct b; [now exists u|now exists (LF :: u)].
      * destruct (IH false) as (u & ->); [now left|]. now exists (c :: u).
Qed.

Lemma split_lines_app_LF (u v : str) :
  split_lines ((u ++ [LF]) ++ v) = split_lines (u ++ [LF]) ++ split_lines v.
Proof.
  induction u as [|c u IH].
  - reflexivity.
  - cbn [app split_lines]. rewrite IH.
    destruct (Ascii.eqb c LF); [reflexivity|].
    destruct (split_lines (u ++ [LF])) as [|l ls] eqn:E; [|reflexivity].
    apply split_lines_nil in E. now destruct u.
Qed.

Lemma file_lines_app_LF (t1 t2 : str) :
  file_lines ((t1 ++ [LF]) ++ t2) = file_lines (t1 ++ [LF]) ++ file_lines t2.
Proof.
  unfold file_lines. rewrite translate_newlines_app_LF.
  destruct (translate_newlines_ends_LF t1 false (or_introl eq_refl))
    as (u & ->).
  apply split_lines_app_LF.
Qed.

(** X7: a log appended to a log that ends with a line feed: the file
    yields the lines of the first followed by the lines of the second,
    and the extraction is that of the first followed by that of the
    second (the steps and losses of the second after those of the
    first, the first exception as the outcome). *)
Theorem file_lines_concat (lim : nat) (t1 t2 : str) :
  file_lines ((t1 ++ [LF]) ++ t2) = file_lines (t1 ++ [LF]) ++ file_lines t2
  /\ parse_log_file lim (file_lines ((t1 ++ [LF]) ++ t2))
     = (r1 <- parse_log_file lim (file_lines (t1 ++ [LF])) ;;
        r2 <- parse_log_file lim (file_lines t2) ;;
        ret (fst r1 ++ fst r2, snd r1 ++ snd r2)).
Proof.
  split; [apply file_lines_app_LF|].
  rewrite file_lines_app_LF. apply parse_log_file_app.
Qed.

(** ** The range the summary reports *)

Section MinMax.
Context {A : Type}.
Variable lt : A -> A -> bool.
Variable P : A -> Prop.
Hypothesis lt_asym : forall a b, P a -> P b -> lt a b = true -> lt b a = false.
Hypothesis lt_cotrans :
  forall a b c, P a -> P b -> P c ->
                lt a b = true -> lt a c = true \/ lt c b = true.

Lemma lt_irrefl (a : A) : P a -> lt a a = false.
Proof.
  intro Ha. destruct (lt a a) eqn:E; [|reflexivity].
  now rewrite (lt_asym a a Ha Ha E) in E.
Qed.

(** [min] returns an item of the list that none is below. *)
Lemma min_from_least (l : list A) :
  forall cur, P cur -> Forall P l ->
    In (min_from lt cur l) (cur :: l)
    /\ forall y, In y (cur :: l) -> lt y (min_from lt cur l) = false.
Proof.
  induction l as [|x l IH]; intros cur Hcur Hl; cbn [min_from].
  - split; [now left|]. intros y [<-|[]]. now apply lt_irrefl.
  - inversion Hl as [|? ? Hx Hl']; subst.
    set (cur' := if lt x cur then x else cur).
    assert (Hcur' : P cur') by (subst cur'; now destruct (lt x cur)).
    destruct (IH cur' Hcur' Hl') as [Hin Hle].
    set (m := min_from lt cur' l) in *.
    assert (Hm : P m).
    { destruct Hin as [<-|Hin]; [assumption|].
      rewrite Forall_forall in Hl'. now apply Hl'. }
    assert (Hc' : lt cur' m = false) by (apply Hle; now left).
    split.
    + destruct Hin as [E|Hin]; [|now right; right].
      rewrite <- E. subst cur'. destruct (lt x cur); [right|]; now left.
    + intros y [<-|[<-|Hy]]; [| |apply Hle; now right].
      * subst cur'. destruct (lt x cur) eqn:E; [|assumption].
        destruct (lt cur m) eqn:F; [|reflexivity].
        destruct (lt_cotrans cur m x Hcur Hm Hx F) as [G|G]; [|congruence].
        now rewrite (lt_asym x cur Hx Hcur E) in G.
      * subst cur'. destruct (lt x cur) eqn:E; [assumption|].
        destruct (lt x m) eqn:F; [|reflexivity].
        destruct (lt_cotrans x m cur Hx Hm Hcur F) as [G|G]; congruence.
Qed.
End MinMax.

Lemma max_from_flip {A} (lt : A -> A -> bool) (l : list A) :
  forall cur, max_from lt cur l = min_from (fun a b => lt b a) cur l.
Proof.
  induction l as [|x l IH]; intro cur; cbn [max_from min_from];
    [reflexivity|apply IH].
Qed.

(** [max] returns an item of the list that none is above. *)
Lemma max_from_greatest {A} (lt : A -> A -> bool) (P : A -> Prop) :
  (forall a b, P a -> P b -> lt a b = true -> lt b a = false) ->
  (forall a b c, P a -> P b -> P c ->
                 lt a b = true -> lt a c = true \/ lt c b = true) ->
  forall l cur, P cur -> Forall P l ->
    In (max_from lt cur l) (cur :: l)
    /\ forall y, In y (cur :: l) -> lt (max_from lt cur l) y = false.
Proof.
  intros Hasym Hco l cur Hcur Hl. rewrite max_from_flip.
  apply (min_from_least (fun a b => lt b a) P); auto.
  intros a b c Ha Hb Hc H.
  destruct (Hco b a c Hb Ha Hc H) as [G|G]; [now right|now left].
Qed.

Lemma finite_lt_iff (m1 m2 : positive) (e1 e2 : Z) :
  float_lt (S754_finite false m1 e1) (S754_finite false m2 e2) = true
  <-> (e1 < e2 \/ (e1 = e2 /\ (m1 < m2)%positive)).
Proof.
  unfold float_lt, SFltb, SFcompare.
  change (Pos.compare_cont Eq m1 m2) with (Pos.compare m1 m2).
  destruct (Z.compare_spec e1 e2) as [He|He|He];
    destruct (Pos.compare_spec m1 m2) as [Hm|Hm|Hm];
    split; intro G; try discriminate; try reflexivity; lia.
Qed.

Ltac float_cases :=
  repeat match goal with
         | x : float |- _ => destruct x as [[]|[]| |[] ? ?]
         | x : spec_float |- _ => destruct x as [[]|[]| |[] ? ?]
         end;
  try discriminate.

Lemma float_lt_asym (a b : float) :
  nonneg_not_nan a = true -> nonneg_not_nan b = true ->
  float_lt a b = true -> float_lt b a = false.
Proof.
  intros Ha Hb H. apply not_true_is_false. intro G. revert Ha Hb H G.
  float_cases; intros _ _; rewrite ?finite_lt_iff;
    try (cbn; discriminate); lia.
Qed.

Lemma float_lt_cotrans (a b c : float) :
  nonneg_not_nan a = true -> nonneg_not_nan b = true ->
  nonneg_not_nan c = true ->
  float_lt a b = true -> float_lt a c = true \/ float_lt c b = true.
Proof.
  float_cases; intros _ _ _; rewrite ?finite_lt_iff;
    try (cbn; intuition discriminate); lia.
Qed.

Lemma Z_ltb_asym (a b : Z) : True -> True -> (a <? b) = true -> (b <? a) = false.
Proof. intros _ _ H. apply Z.ltb_lt in H. apply Z.ltb_ge. lia. Qed.

Lemma Z_ltb_cotrans (a b c : Z) :
  True -> True -> True ->
  (a <? b) = true -> (a <? c) = true \/ (c <? b) = true.
Proof. intros _ _ _ H. rewrite !Z.ltb_lt in *. lia. Qed.

Lemma parse_log_file_records (lim : nat) (lines : list str)
      (s : list Z) (l : list float) :
  parse_log_file lim lines = inr (s, l) ->
  length s = length (filter matching lines)
  /\ Forall (fun x => nonneg_not_nan x = true) l.
Proof.
  intro H. apply parse_log_file_inr in H.
  destruct (for_lines_records _ _ _ H) as (recs & HF & Hs & Hl).
  cbn in Hs, Hl. subst s l. split.
  - rewrite length_map. symmetry. eapply Forall2_length; eassumption.
  - clear H. induction HF as [|line [n x] ms recs (m & _ & Hc) _ IH];
      simpl; constructor; [|assumption].
    apply convert_returns in Hc. tauto.
Qed.

(** X8: on a series [parse_log_file] returned, not empty, the summary
    of [main] does not raise; the count it prints is the number of
    lines of the log that match the pattern; the two steps it prints
    are steps of the series with every step between them; the two
    losses it prints are losses of the series, none of which is below
    the first or above the second. *)
Theorem summary_range_sound (lim : nat) (lines : list str)
        (steps : list Z) (losses : list float) :
  parse_log_file lim lines = inr (steps, losses) ->
  steps <> [] ->
  exists lo hi flo fhi,
    summary steps losses
    = inr [Print ("Found " ++ str_of_nat (length (filter matching lines))
                  ++ " validation loss measurements");
           Print ("Steps: " ++ str_of_Z lo ++ " to " ++ str_of_Z hi);
           Print ("Loss range: " ++ format_4f flo ++ " to "
                  ++ format_4f fhi)]
    /\ In lo steps /\ In hi steps
    /\ (forall n, In n steps -> lo <= n <= hi)
    /\ In flo losses /\ In fhi losses
    /\ (forall x, In x losses ->
                  float_lt x flo = false /\ float_lt fhi x = false).
Proof.
  intros Hp Hne.
  pose proof (parse_log_file_aligned lim lines steps losses Hp) as Hlen.
  destruct (parse_log_file_records lim lines steps losses Hp) as [Hcount Hnn].
  destruct steps as [|n s]; [congruence|].
  destruct losses as [|x l]; [discriminate|].
  inversion Hnn as [|? ? Hx Hl]; subst.
  assert (HT : Forall (fun _ : Z => True) s) by (apply Forall_forall; auto).
  destruct (min_from_least Z.ltb (fun _ => True) Z_ltb_asym Z_ltb_cotrans
                           s n I HT) as [Imin Lmin].
  destruct (max_from_greatest Z.ltb (fun _ => True) Z_ltb_asym Z_ltb_cotrans
                              s n I HT) as [Imax Lmax].
  destruct (min_from_least float_lt (fun y => nonneg_not_nan y = true)
                           float_lt_asym float_lt_cotrans l x Hx Hl)
    as [Fmin FLmin].
  destruct (max_from_greatest float_lt (fun y => nonneg_not_nan y = true)
                              float_lt_asym float_lt_cotrans l x Hx Hl)
    as [Fmax FLmax].
  exists (min_from Z.ltb n s), (max_from Z.ltb n s),
    (min_from float_lt x l), (max_from float_lt x l).
  split; [|repeat split; try assumption].
  - unfold summary. cbn [py_min py_max]. now rewrite Hcount.
  - specialize (Lmin _ H). apply Z.ltb_ge in Lmin. lia.
  - specialize (Lmax _ H). apply Z.ltb_ge in Lmax. lia.
  - now apply FLmin.
  - now apply FLmax.
Qed.

Lemma summary_range_sound_witness :
  exists lo hi flo fhi,
    summary [20; 10; 20] [py_float_lit "2.1"; py_float_lit "2.5";
                          py_float_lit "1.9"]
    = inr [Print ("Found "
                  ++ str_of_nat
                       (length (filter matching
                                       [lit "step:20/30 val_loss:2.1";
                                        lit "step:10/30 val_loss:2.5";
                                        lit "restart";
                                        lit "step:20/30 val_loss:1.9"]))
                  ++ " validation loss measurements");
           Print ("Steps: " ++ str_of_Z lo ++ " to " ++ str_of_Z hi);
           Print ("Loss range: " ++ format_4f flo ++ " to "
                  ++ format_4f fhi)]
    /\ In lo [20; 10; 20] /\ In hi [20; 10; 20]
    /\ (forall n, In n [20; 10; 20] -> lo <= n <= hi)
    /\ In flo [py_float_lit "2.1"; py_float_lit "2.5"; py_float_lit "1.9"]
    /\ In fhi [py_float_lit "2.1"; py_float_lit "2.5"; py_float_lit "1.9"]
    /\ (forall x,
           In x [py_float_lit "2.1"; py_float_lit "2.5"; py_float_lit "1.9"] ->
           float_lt x flo = false /\ float_lt fhi x = false).
Proof.
  apply (summary_range_sound
           4300 [lit "step:20/30 val_loss:2.1"; lit "step:10/30 val_loss:2.5";
                 lit "restart"; lit "step:20/30 val_loss:1.9"]).
  - reflexivity.
  - discriminate.
Defined.

(** X9: [main] ends with status 0 or 1; with 0 exactly when the log is
    a readable file, [parse_log_file] returns a series that is not
    empty, and no plotting call of [plot_loss] raises; and the plotting
    library is not called at all unless the extraction has returned
    such a series: with no file, an unreadable one, an exception in the
    extraction or no record, nothing is drawn, shown or saved. *)
Theorem main_exit_status (lim : nat) (path_str : string -> string)
        (plt : plt_env) (fs : string -> option fs_entry) (a : args) :
  (exit_status (snd (main lim path_str plt fs a)) = 0
   \/ exit_status (snd (main lim path_str plt fs a)) = 1)
  /\ (exit_status (snd (main lim path_str plt fs a)) = 0
      <-> exists lines steps losses,
          fs (log_file a) = Some (TextFile lines)
          /\ parse_log_file lim lines = inr (steps, losses)
          /\ steps <> []
          /\ snd (plot_loss plt steps losses (output a) (title a))
             = Normal)
  /\ (existsb is_plt (fst (main lim path_str plt fs a)) = true ->
      exists lines steps losses,
        fs (log_file a) = Some (TextFile lines)
        /\ parse_log_file lim lines = inr (steps, losses)
        /\ steps <> []).
Proof.
  unfold main.
  destruct (fs (log_file a)) as [[lines|]|] eqn:Hfs.
  - destruct (parse_log_file lim lines) as [e|[s l]] eqn:Hp.
    + cbn. repeat split; try (now right); try discriminate.
      intros (lines' & s' & l' & E & Hp' & _). congruence.
    + destruct s as [|n s].
      * cbn. repeat split; try (now right); try discriminate.
        intros (lines' & s' & l' & E & Hp' & Hne & _). congruence.
      * pose proof (parse_log_file_aligned lim lines _ _ Hp) as Hlen.
        destruct l as [|x l]; [discriminate|].
        destruct (summary_returns (n :: s) (x :: l)) as (stats & ->);
          try discriminate.
        cbn [is_nil fst snd].
        destruct (snd (plot_loss plt (n :: s) (x :: l) (output a) (title a)))
          as [|e] eqn:Hc; cbn [exit_status].
        { split; [now left|]. split.
          - split; [|reflexivity]. intros _.
            exists lines, (n :: s), (x :: l).
            repeat split; [assumption|discriminate|assumption].
          - intros _. exists lines, (n :: s), (x :: l).
            repeat split; [assumption|discriminate]. }
        { split; [now right|]. split.
          - split; [discriminate|].
            intros (lines' & s' & l' & E & Hp' & _ & Hn).
            assert (lines' = lines) by congruence. subst lines'.
            rewrite Hp in Hp'. inversion Hp'; subst s' l'. congruence.
          - intros _. exists lines, (n :: s), (x :: l).
            repeat split; [assumption|discriminate]. }
  - cbn. repeat split; try (now right); try discriminate.
    intros (lines' & s' & l' & E & _). congruence.
  - cbn. repeat split; try (now right); try discriminate.
    intros (lines' & s' & l' & E & _). congruence.
Qed.

Lemma main_exit_status_witness :
  exit_status (snd (main 4300 (fun p => p) plt_ok
                         (one_log [lit "step:1/9 val_loss:0.5"])
                         (no_options "log.txt"))) = 0
  /\ exists lines steps losses,
      one_log [lit "step:1/9 val_loss:0.5"] (log_file (no_options "log.txt"))
      = Some (TextFile lines)
      /\ parse_log_file 4300 lines = inr (steps, losses)
      /\ steps <> [].
Proof.
  split.
  - apply (proj2 (proj1 (proj2 (main_exit_status
                                  4300 (fun p => p) plt_ok
                                  (one_log [lit "step:1/9 val_loss:0.5"])
                                  (no_options "log.txt"))))).
    exists [lit "step:1/9 val_loss:0.5"], [1], [py_float_lit "0.5"].
    repeat split; [discriminate].
  - apply (proj2 (proj2 (main_exit_status
                           4300 (fun p => p) plt_ok
                           (one_log [lit "step:1/9 val_loss:0.5"])
                           (no_options "log.txt")))).
    reflexivity.
Defined.

(** X10: [plot_loss] stops at the first call that raises: the calls
    that returned are the first of the calls it makes, all of them
    exactly when it ends normally.  Lists of unequal length, or a step
    too large for a float, make [plt.plot] raise, so that at most the
    figure has been opened and nothing is labelled, saved or shown.
    And the message that the plot was saved is printed only after
    [savefig] has returned. *)
Theorem plot_loss_stops_at_failure (env : plt_env) (steps : list Z)
        (losses : list float) (output_file title : option string) :
  (exists rest,
      plot_calls steps losses output_file title
      = fst (plot_loss env steps losses output_file title) ++ rest
      /\ (snd (plot_loss env steps losses output_file title) = Normal
          <-> rest = []))
  /\ (forall e,
        steps <> [] -> plot_args_error steps losses = Some e ->
        plot_loss env steps losses output_file title
        = match env (PltFigure 10 6) with
          | Some e' => ([], Raised e')
          | None => ([PltFigure 10 6], Raised e)
          end)
  /\ (forall p,
        steps <> [] ->
        In (Print ("Plot saved to " ++ p))
           (fst (plot_loss env steps losses output_file title)) ->
        In (PltSavefig p 150)
           (fst (plot_loss env steps losses output_file title))
        /\ snd (plot_loss env steps losses output_file title) = Normal).
Proof.
  split; [apply run_calls_prefix|]. split.
  - intros e Hne He. destruct steps as [|n s]; [congruence|].
    unfold plot_loss, plot_calls. cbn [is_nil app run_calls call_outcome].
    destruct (env (PltFigure 10 6)); [reflexivity|]. now rewrite He.
  - intros p Hne Hin. unfold plot_loss in *.
    destruct (run_calls_prefix env (plot_calls steps losses output_file title))
      as (rest & E & Hn).
    set (tr := fst (run_calls env (plot_calls steps losses output_file title)))
      in *.
    destruct steps as [|n s]; [congruence|].
    unfold plot_calls in E. cbn [is_nil] in E.
    destruct (truthy output_file) as [out|]; cbn [app] in E;
      destruct tr as [|t1 [|t2 [|t3 [|t4 [|t5 [|t6 [|t7 [|t8 [|t9 tr]]]]]]]]];
      cbn [app] in E; inversion E; subst;
      try match goal with
          | H : [] = ?t ++ rest |- _ =>
              symmetry in H; apply app_eq_nil in H; destruct H; subst
          end;
      cbn [In] in Hin;
      repeat match goal with
             | H : _ \/ _ |- _ => destruct H
             end; try discriminate; try contradiction.
    match goal with H : Print _ = Print _ |- _ =>
                      simpl in H; inversion H; subst end.
    split; [simpl; auto 12|]. now apply Hn.
Qed.

Lemma plot_loss_stops_at_failure_witness :
  plot_loss plt_ok [1; 2] [py_float_lit "0.5"] None None
  = ([PltFigure 10 6], Raised (ValueError ShapeMismatch))
  /\ (In (PltSavefig "a.png" 150)
         (fst (plot_loss plt_ok [1] [py_float_lit "0.5"] (Some "a.png") None))
      /\ snd (plot_loss plt_ok [1] [py_float_lit "0.5"] (Some "a.png") None)
         = Normal).
Proof.
  split.
  - apply (proj1 (proj2 (plot_loss_stops_at_failure
                           plt_ok [1; 2] [py_float_lit "0.5"] None None))
                 (ValueError ShapeMismatch)).
    + discriminate.
    + reflexivity.
  - apply (proj2 (proj2 (plot_loss_stops_at_failure
                           plt_ok [1] [py_float_lit "0.5"]
                           (Some "a.png") None))).
    + discriminate.
    + simpl. auto 12.
Defined.
